(** * pico-lora-p2m: the E32 LoRa controller and the broadcast drain

    A shallow embedding of [src/lib/modules/lora/index.ts] (class [LoRaE32])
    and of the [Drain] class of the broadcast layer.

    - Bytes are integers ([Z]); the places where the code builds a
      [Uint8Array] from numbers carry the wrap-around explicitly.
    - An [async] method is a term of the inductive type [Async]: a tree of
      the effects the method performs, with one node per [await] on the
      byte-accumulation primitive [receive].
    - [run] executes such a term on a [Machine]: the controller object, the
      trace of effects on its collaborators (pins, UART, data link,
      observers) and the chunks the UART delivers as ['data'] events while a
      [receive] handler is attached.
    - Calls to the logger are left out; [constant.js] and [packet.js] are
      not among the sources, so what the classes take from them is a
      parameter ([Constants], [Address], [BroadcastPacket.from]) or, for the
      configuration codec, a definition that follows the specification. *)

From Stdlib Require Import String.
From Stdlib Require Import ZArith List Bool Lia.
Import ListNotations.

Local Open Scope Z_scope.

(** ** Values *)

Definition bytes := list Z.

(** Thrown values.  [ParseError_WrongLength] and [ValidationError_BadHeader]
    are the two failures of the configuration codec. *)
Inductive JsError : Type :=
| Error (message : string)
| TypeError (message : string)
| RangeError (message : string)
| IllegalOperationError (message : string)
| ParseError_WrongLength
| ValidationError_BadHeader.

(** The outcome of a synchronous call: a value, or a thrown error. *)
Inductive completion (A : Type) : Type :=
| Normal (a : A)
| Abrupt (e : JsError).
Arguments Normal {A} a.
Arguments Abrupt {A} e.

(** The few JavaScript values a field declared without initialiser can hold. *)
Inductive JsValue : Type :=
| undefined
| JsBoolean (b : bool).

(** [v == false]: loose equality against the boolean [false].  [undefined] is
    loosely equal to [null] and [undefined] only. *)
Definition loose_eq_false (v : JsValue) : bool :=
  match v with
  | undefined => false
  | JsBoolean b => negb b
  end.

(** [enum Mode] of [constant.js], with the four members that [setMode]
    lists. *)
Inductive Mode : Type := NORMAL | WAKE_UP | POWER_SAVING | SLEEP.

Definition Mode_eqb (a b : Mode) : bool :=
  match a, b with
  | NORMAL, NORMAL | WAKE_UP, WAKE_UP
  | POWER_SAVING, POWER_SAVING | SLEEP, SLEEP => true
  | _, _ => false
  end.

Inductive Level : Type := LOW | HIGH.
Inductive PinName : Type := M0 | M1 | AUX.

(** ** Numbers on the wire *)

(** [ToInt32] and [ToUint8] on integers. *)
Definition toInt32 (z : Z) : Z := (z + 2 ^ 31) mod 2 ^ 32 - 2 ^ 31.
Definition toUint8 (z : Z) : Z := z mod 256.

(** The [|] operator. *)
Definition bitor (a b : Z) : Z := Z.lor (toInt32 a) (toInt32 b).
Infix ".|" := bitor (at level 50, left associativity).

(** [new Uint8Array([...])] from a list of numbers. *)
Definition Uint8Array_of (l : list Z) : bytes := map toUint8 l.

(** [new Uint8Array(n)]. *)
Definition new_Uint8Array (n : nat) : bytes := repeat 0 n.

(** [target.set(source, offset)]: copies [source] into [target] from index
    [offset]; a source that does not fit raises a [RangeError] and leaves the
    target as it was. *)
Definition Uint8Array_set (target source : bytes) (offset : nat)
  : completion bytes :=
  if (length target <? offset + length source)%nat
  then Abrupt (RangeError "offset is out of bounds"%string)
  else Normal (firstn offset target ++ source
               ++ skipn (offset + length source) target).

(** ** Configuration and version records *)

Record Config : Type := {
  header : Z;
  highAddress : Z;
  lowAddress : Z;
  airRate : Z;
  baudRate : Z;
  parityBit : Z;
  channel : Z;
  FEC : Z;
  driveMode : Z;
  transmissionMode : Z;
  transmissionPower : Z;
  wakeUpTime : Z
}.

Record Version : Type := {
  v_header : Z;
  v_model : Z;
  v_version : Z;
  v_features : Z
}.

(** What [constant.js] fixes and the controller relies on: the header
    sentinel, the bit masks of the two packed bytes, and the fields of a
    freshly constructed [Config]. *)
Record Constants : Type := {
  HEADER : Z;
  AIR_RATE_MASK : Z;
  BAUD_RATE_MASK : Z;
  PARITY_BIT_MASK : Z;
  FEC_MASK : Z;
  DRIVE_MODE_MASK : Z;
  TRANSMISSION_MODE_MASK : Z;
  TRANSMISSION_POWER_MASK : Z;
  WAKE_UP_TIME_MASK : Z;
  new_Config : Config
}.

(** ** The byte-accumulation primitive

    [receive(packetLength)] allocates a buffer, attaches [handler] to the
    UART's ['data'] event and resolves from inside the handler. *)

Record Receiver : Type := {
  packetLength : nat;
  buf : bytes;
  cursor : nat
}.

Definition new_Receiver (n : nat) : Receiver :=
  {| packetLength := n; buf := new_Uint8Array n; cursor := 0 |}.

(** One run of [handler]: it resolves the promise (after detaching itself),
    stays attached with an updated buffer, or is left by the exception of
    [buf.set] before [cursor] is touched. *)
Inductive Handled : Type :=
| Resolves (result : bytes)
| Continues (r : Receiver)
| Throws (e : JsError).

Definition handler (r : Receiver) (data : bytes) : Handled :=
  match Uint8Array_set (buf r) data (cursor r) with
  | Abrupt e => Throws e
  | Normal buf' =>
      let cursor' := (cursor r + length data)%nat in
      if (packetLength r <=? cursor')%nat
      then Resolves buf'
      else Continues {| packetLength := packetLength r;
                        buf := buf'; cursor := cursor' |}
  end.

(** The controller object.  [isSetup] is declared with the literal type
    [false] and no initialiser, so it holds a [JsValue]. *)
Record LoRaE32 : Type := {
  mode : Mode;
  auxWatcherId : option Z;
  config : option Config;
  version : option Version;
  isSetup : JsValue
}.

(** The assignments to fields of [this] that occur in the class. *)
Inductive Assignment : Type :=
| Mode_field (mode : Mode)
| Config_field (config : Config)
| Version_field (version : Version).

Definition assign (a : Assignment) (t : LoRaE32) : LoRaE32 :=
  match a with
  | Mode_field m =>
      {| mode := m; auxWatcherId := auxWatcherId t; config := config t;
         version := version t; isSetup := isSetup t |}
  | Config_field c =>
      {| mode := mode t; auxWatcherId := auxWatcherId t; config := Some c;
         version := version t; isSetup := isSetup t |}
  | Version_field v =>
      {| mode := mode t; auxWatcherId := auxWatcherId t; config := config t;
         version := Some v; isSetup := isSetup t |}
  end.

(** Effects of the controller, in program order: calls on its collaborators,
    the life of the [receive] listener, and assignments to its own fields. *)
Inductive Action : Type :=
| DigitalWrite (pin : PinName) (level : Level)
| UartWrite (data : bytes)
| UartOnData
| UartOffData
| UncaughtInHandler (e : JsError)
| EmitMode (mode : Mode)
| LinkSend (data : bytes)
| LinkWrite (data : bytes)
| Wait (ms : Z)
| ClearWatch (id : Z)
| Assigned (a : Assignment).

(** The fate of one [receive] against the chunks the UART delivers: it is
    fulfilled at some chunk (the later ones are left for whoever listens
    next), or the chunks run out while the handler is still attached. *)
Inductive Fed : Type :=
| Fulfilled (result : bytes) (log : list Action) (rest : list bytes)
| Waiting (r : Receiver) (log : list Action).

Definition logged (a : Action) (f : Fed) : Fed :=
  match f with
  | Fulfilled b log rest => Fulfilled b (a :: log) rest
  | Waiting r log => Waiting r (a :: log)
  end.

Fixpoint feed (r : Receiver) (chunks : list bytes) : Fed :=
  match chunks with
  | [] => Waiting r []
  | data :: rest =>
      match handler r data with
      | Resolves b => Fulfilled b [] rest
      | Continues r' => feed r' rest
      | Throws e => logged (UncaughtInHandler e) (feed r rest)
      end
  end.

(** ** Asynchronous methods

    A method body as a tree: what it returns or throws, the effects it
    performs, the reads and writes of [this], and its [await]s on
    [receive]. *)
Inductive Async (A : Type) : Type :=
| Return (a : A)
| Throw (e : JsError)
| Perform (act : Action) (k : Async A)
| ReadThis (k : LoRaE32 -> Async A)
| Assign (a : Assignment) (k : Async A)
| DigitalRead (pin : PinName) (k : Level -> Async A)
| AwaitReceive (n : nat) (k : bytes -> Async A).
Arguments Return {A} a.
Arguments Throw {A} e.
Arguments Perform {A} act k.
Arguments ReadThis {A} k.
Arguments Assign {A} a k.
Arguments DigitalRead {A} pin k.
Arguments AwaitReceive {A} n k.

Fixpoint bind {A B : Type} (p : Async A) (f : A -> Async B) : Async B :=
  match p with
  | Return a => f a
  | Throw e => Throw e
  | Perform act k => Perform act (bind k f)
  | ReadThis k => ReadThis (fun t => bind (k t) f)
  | Assign a k => Assign a (bind k f)
  | DigitalRead pin k => DigitalRead pin (fun l => bind (k l) f)
  | AwaitReceive n k => AwaitReceive n (fun b => bind (k b) f)
  end.

Declare Scope async_scope.
Delimit Scope async_scope with async.
Notation "x <- p ;; q" := (bind p (fun x => q))
  (at level 61, p at next level, right associativity) : async_scope.
Notation "p ;; q" := (bind p (fun _ => q))
  (at level 61, right associativity) : async_scope.
Local Open Scope async_scope.

Definition perform (act : Action) : Async unit := Perform act (Return tt).
Definition this_ : Async LoRaE32 := ReadThis Return.
Definition assign_this (a : Assignment) : Async unit := Assign a (Return tt).

(** A synchronous call inside a method: its value, or its exception. *)
Definition call {A : Type} (c : completion A) : Async A :=
  match c with
  | Normal a => Return a
  | Abrupt e => Throw e
  end.

(** ** Running a method *)

Record Machine : Type := {
  this : LoRaE32;
  trace : list Action;
  inbox : list bytes;
  pin_level : PinName -> Level
}.

Definition note (acts : list Action) (m : Machine) : Machine :=
  {| this := this m; trace := trace m ++ acts;
     inbox := inbox m; pin_level := pin_level m |}.

Definition store (a : Assignment) (m : Machine) : Machine :=
  {| this := assign a (this m); trace := trace m ++ [Assigned a];
     inbox := inbox m; pin_level := pin_level m |}.

Definition listened (acts : list Action) (rest : list bytes) (m : Machine)
  : Machine :=
  {| this := this m; trace := trace m ++ acts;
     inbox := rest; pin_level := pin_level m |}.

(** How a method ends: its promise is fulfilled, it is rejected (or the
    synchronous method throws), or it stays pending on a [receive] whose
    handler is still attached when the chunks run out. *)
Inductive Outcome (A : Type) : Type :=
| Resolved (a : A) (m : Machine)
| Rejected (e : JsError) (m : Machine)
| Pending (r : Receiver) (m : Machine).
Arguments Resolved {A} a m.
Arguments Rejected {A} e m.
Arguments Pending {A} r m.

Definition final {A : Type} (o : Outcome A) : Machine :=
  match o with
  | Resolved _ m | Rejected _ m | Pending _ m => m
  end.

Fixpoint run {A : Type} (p : Async A) (m : Machine) : Outcome A :=
  match p with
  | Return a => Resolved a m
  | Throw e => Rejected e m
  | Perform act k => run k (note [act] m)
  | ReadThis k => run (k (this m)) m
  | Assign a k => run k (store a m)
  | DigitalRead pin k => run (k (pin_level m pin)) m
  | AwaitReceive n k =>
      match feed (new_Receiver n) (inbox m) with
      | Fulfilled b log rest =>
          run (k b) (listened (UartOnData :: log ++ [UartOffData]) rest m)
      | Waiting r log => Pending r (listened (UartOnData :: log) [] m)
      end
  end.

(** ** The class [LoRaE32] *)

Section Controller.

(** The parts of [constant.js] and [packet.js] the class uses. *)
Variable K : Constants.
Variable Address : Type.
Variable new_Address : option Config -> completion Address.

(** Declared in the module and used nowhere in it. *)
Definition TIMEOUT_LIMIT : Z := 1000.

Definition PACKET_GET_CONFIG : bytes := Uint8Array_of [0xc1; 0xc1; 0xc1].

(** Modelled from the spec: [Config.from] of [constant.js], which is not
    among the sources.  It unpacks six bytes into the fields of the
    register, the packed bytes through their masks, and fails with
    [WrongLength] on any other length. *)
Definition Config_from (b : bytes) : completion Config :=
  match b with
  | [head; addh; addl; sped; chan; option] =>
      Normal {| header := head;
                highAddress := addh;
                lowAddress := addl;
                airRate := Z.land sped (AIR_RATE_MASK K);
                baudRate := Z.land sped (BAUD_RATE_MASK K);
                parityBit := Z.land sped (PARITY_BIT_MASK K);
                channel := chan;
                FEC := Z.land option (FEC_MASK K);
                driveMode := Z.land option (DRIVE_MODE_MASK K);
                transmissionMode := Z.land option (TRANSMISSION_MODE_MASK K);
                transmissionPower :=
                  Z.land option (TRANSMISSION_POWER_MASK K);
                wakeUpTime := Z.land option (WAKE_UP_TIME_MASK K) |}
  | _ => Abrupt ParseError_WrongLength
  end.

(** Modelled from the spec: [Config.prototype.assert] of [constant.js],
    which is not among the sources.  It hands the register back when its
    header is the expected sentinel and fails with [BadHeader] otherwise. *)
Definition Config_assert (c : Config) : completion Config :=
  if header c =? HEADER K then Normal c
  else Abrupt ValidationError_BadHeader.

(** [Object.assign(new Config(), source)]: a [null] source is skipped. *)
Definition Object_assign_Config (source : option Config) : Config :=
  match source with
  | Some c => c
  | None => new_Config K
  end.

(** The fields of a controller as the field initialisers and the
    constructor leave them: [mode] starts as [Mode.SLEEP], [config] and
    [version] as [null]; [isSetup] and [auxWatcherId] get no value.  The
    constructor itself only configures the three pins and forwards the
    events of the data link. *)
Definition new_LoRaE32 : LoRaE32 :=
  {| mode := SLEEP; auxWatcherId := None; config := None;
     version := None; isSetup := undefined |}.

Definition setMode (mode : Mode) : Async unit :=
  let m := match mode with
           | NORMAL => (LOW, LOW)
           | WAKE_UP => (HIGH, LOW)
           | POWER_SAVING => (LOW, HIGH)
           | SLEEP => (HIGH, HIGH)
           end in
  perform (DigitalWrite M0 (fst m));;
  perform (DigitalWrite M1 (snd m));;
  assign_this (Mode_field mode);;
  perform (EmitMode mode).

Definition receive (packetLength : nat) : Async bytes :=
  AwaitReceive packetLength Return.

Definition assertReady : Async unit :=
  t <- this_;;
  if loose_eq_false (isSetup t)
  then Throw (Error "Module is not setup yet!")
  else Return tt.

Definition assertSleepMode : Async unit :=
  t <- this_;;
  if negb (Mode_eqb (mode t) SLEEP)
  then Throw (IllegalOperationError
                "Reading parameters while not in sleep mode")
  else Return tt.

Definition waitQueue : Async unit := Return tt.

Definition readParameters : Async Config :=
  assertSleepMode;;
  perform (UartWrite PACKET_GET_CONFIG);;
  result <- receive 6;;
  c <- call (Config_from result);;
  call (Config_assert c).

Definition getConfig : Async Config :=
  assertReady;;
  t <- this_;;
  Return (Object_assign_Config (config t)).

Definition getAddress : Async Address :=
  assertReady;;
  t <- this_;;
  call (new_Address (config t)).

Definition setConfig (config : Config) : Async unit :=
  assertSleepMode;;
  let data := Uint8Array_of
    [ header config;
      highAddress config;
      lowAddress config;
      airRate config .| baudRate config .| parityBit config;
      channel config;
      FEC config .| driveMode config .| transmissionMode config
        .| transmissionPower config .| wakeUpTime config ] in
  perform (UartWrite data);;
  echo <- receive 6;;
  c <- call (Config_from echo);;
  assign_this (Config_field c).

Definition resetConfig : Async unit :=
  assertSleepMode;;
  let data := Uint8Array_of [0xc4; 0xc4; 0xc4] in
  perform (UartWrite data);;
  perform (Wait 50);;
  c <- readParameters;;
  assign_this (Config_field c).

(** The statements of [readVersion] that follow its [await]: the length
    check and the destructuring of the four bytes. *)
Definition readVersion_unpack (result : bytes) : completion Version :=
  if negb (length result =? 4)%nat
  then Abrupt (TypeError "Parameters didn't return exactly 4 bytes")
  else Normal {| v_header := nth 0 result 0;
                 v_model := nth 1 result 0;
                 v_version := nth 2 result 0;
                 v_features := nth 3 result 0 |}.

Definition readVersion : Async Version :=
  assertSleepMode;;
  let data := Uint8Array_of [0xc3; 0xc3; 0xc3] in
  perform (UartWrite data);;
  result <- receive 4;;
  call (readVersion_unpack result).

Definition setup : Async unit :=
  setMode SLEEP;;
  c <- readParameters;;
  assign_this (Config_field c);;
  v <- readVersion;;
  assign_this (Version_field v).

Definition ready : Async Level := DigitalRead AUX Return.

Definition getVersion : Async (option Version) :=
  assertReady;;
  t <- this_;;
  Return (version t).

Definition getMode : Async Mode :=
  assertReady;;
  t <- this_;;
  Return (mode t).

Definition close : Async unit :=
  t <- this_;;
  match auxWatcherId t with
  | Some id => perform (ClearWatch id)
  | None => Return tt
  end.

Definition send (data : bytes) : Async unit :=
  t <- this_;;
  if Mode_eqb (mode t) SLEEP
  then Throw (IllegalOperationError
                "Attempt to send data while in sleep mode")
  else perform (LinkSend data).

Definition write (data : bytes) : Async unit := perform (LinkWrite data).

End Controller.

(** A machine around a freshly constructed controller. *)
Definition boot (chunks : list bytes) : Machine :=
  {| this := new_LoRaE32; trace := []; inbox := chunks;
     pin_level := fun _ => HIGH |}.

(** The register layout of the E32 data sheet, to run the model on concrete
    bytes: header [0xC0]; SPED = parity (7-6), baud rate (5-3), air rate
    (2-0); OPTION = transmission mode (7), drive mode (6), wake-up time
    (5-3), FEC (2), power (1-0). *)
Definition E32 : Constants :=
  {| HEADER := 0xc0;
     AIR_RATE_MASK := 0x07;
     BAUD_RATE_MASK := 0x38;
     PARITY_BIT_MASK := 0xc0;
     FEC_MASK := 0x04;
     DRIVE_MODE_MASK := 0x40;
     TRANSMISSION_MODE_MASK := 0x80;
     TRANSMISSION_POWER_MASK := 0x03;
     WAKE_UP_TIME_MASK := 0x38;
     new_Config :=
       {| header := 0xc0; highAddress := 0; lowAddress := 0;
          airRate := 0x02; baudRate := 0x18; parityBit := 0;
          channel := 0x17; FEC := 0x04; driveMode := 0x40;
          transmissionMode := 0; transmissionPower := 0;
          wakeUpTime := 0 |} |}.

(** A reply to the read-configuration command, in two chunks, and the
    register it parses to under [E32]. *)
Definition sample_config_reply : list bytes :=
  [[0xc0; 0; 1]; [0x1a; 0x17; 0x44]].

Definition sample_config : Config :=
  {| header := 0xc0; highAddress := 0; lowAddress := 1;
     airRate := 0x02; baudRate := 0x18; parityBit := 0;
     channel := 0x17; FEC := 0x04; driveMode := 0x40;
     transmissionMode := 0; transmissionPower := 0; wakeUpTime := 0 |}.

(** A reply to the read-version command, in two chunks. *)
Definition sample_version_reply : list bytes := [[0xc3; 0x32]; [0x0d; 0x14]].

(** A controller that was switched to NORMAL. *)
Definition in_NORMAL (chunks : list bytes) : Machine :=
  {| this := assign (Mode_field NORMAL) new_LoRaE32; trace := [];
     inbox := chunks; pin_level := fun _ => HIGH |}.

(** A stand-in for [BroadcastPacket.from] to run the drain on: a packet is
    its payload, and a frame of fewer than two bytes is malformed. *)
Definition sample_from (msg : bytes) : completion bytes :=
  match msg with
  | _ :: _ :: payload => Normal payload
  | _ => Abrupt (TypeError "malformed broadcast packet")
  end.

(** ** The broadcast drain

    [Drain] of the broadcast layer: it listens to the ['message'] events of
    a connection and re-emits each frame as a parsed packet or as an
    error. *)

Section Drain.

(** [BroadcastPacket] and its static [from] live in [packet.js]. *)
Variable BroadcastPacket : Type.
Variable BroadcastPacket_from : bytes -> completion BroadcastPacket.

(** What the listeners registered on the drain do with an event: they
    return, or one of them throws. *)
Variable message_listeners : BroadcastPacket -> completion unit.
Variable error_listeners : JsError -> completion unit.

Inductive Event : Type :=
| Message (broadcastMsg : BroadcastPacket)
| ErrorEvent (e : JsError).

(** The drain as its connection and its observers see it: whether its
    callback is registered on the connection, the events it has emitted,
    and the exceptions that left its callback. *)
Record Drain : Type := {
  subscribed : bool;
  emitted : list Event;
  uncaught : list JsError
}.

(** [this.emit(...)]: the event goes out, and a throwing listener makes
    the call throw. *)
Definition emit (ev : Event) (d : Drain) : Drain * completion unit :=
  ({| subscribed := subscribed d; emitted := emitted d ++ [ev];
      uncaught := uncaught d |},
   match ev with
   | Message broadcastMsg => message_listeners broadcastMsg
   | ErrorEvent e => error_listeners e
   end).

(** The callback: the [try] block parses and emits ['message']; whatever
    it throws is emitted as ['error'] by the [catch] block. *)
Definition on_message (d : Drain) (msg : bytes) : Drain :=
  let try :=
    match BroadcastPacket_from msg with
    | Normal broadcastMsg => emit (Message broadcastMsg) d
    | Abrupt e => (d, Abrupt e)
    end in
  match try with
  | (d', Normal _) => d'
  | (d', Abrupt e) =>
      match emit (ErrorEvent e) d' with
      | (d'', Normal _) => d''
      | (d'', Abrupt e') =>
          {| subscribed := subscribed d''; emitted := emitted d'';
             uncaught := uncaught d'' ++ [e'] |}
      end
  end.

(** The constructor registers the callback with [connection.on]. *)
Definition new_Drain : Drain :=
  {| subscribed := true; emitted := []; uncaught := [] |}.

(** The connection emits ['message']: registered callbacks run. *)
Definition connection_emit (d : Drain) (msg : bytes) : Drain :=
  if subscribed d then on_message d msg else d.

Definition drain (frames : list bytes) : Drain :=
  fold_left connection_emit frames new_Drain.

(** The events one frame gives rise to: the ['message'] of the [try]
    block and the ['error'] of the [catch] block. *)
Definition events_of (msg : bytes) : list Event :=
  match BroadcastPacket_from msg with
  | Abrupt e => [ErrorEvent e]
  | Normal broadcastMsg =>
      Message broadcastMsg
      :: match message_listeners broadcastMsg with
         | Normal _ => []
         | Abrupt e => [ErrorEvent e]
         end
  end.

End Drain.

Arguments Message {BroadcastPacket} broadcastMsg.
Arguments ErrorEvent {BroadcastPacket} e.
Arguments subscribed {BroadcastPacket} d.
Arguments emitted {BroadcastPacket} d.
Arguments uncaught {BroadcastPacket} d.

(** ** The broadcast sender

    [Broadcast] of the broadcast layer: [send] wraps a payload in a packet,
    hands the packet's bytes to [connection.send] and then emits ['send']
    with the packet. *)

Section Broadcast.

(** [Object.assign(new BroadcastPacket(), { data: Arrayable(data) })] and
    [toTypedArray] come from [packet.js]; the listeners of ['send'] and the
    connection are whatever the caller supplies. *)
Variable BroadcastPacket : Type.
Variable with_data : bytes -> BroadcastPacket.
Variable toTypedArray : BroadcastPacket -> completion bytes.
Variable send_listeners : BroadcastPacket -> completion unit.
Variable Connection : Type.
Variable connection_send :
  bytes -> Connection -> completion unit * Connection.

(** The sender as its connection and its observers see it. *)
Record Broadcast : Type := {
  connection : Connection;
  sent : list BroadcastPacket
}.

Definition Broadcast_send (data : bytes) (b : Broadcast)
  : completion unit * Broadcast :=
  let broadcastMsg := with_data data in
  match toTypedArray broadcastMsg with
  | Abrupt e => (Abrupt e, b)
  | Normal wire =>
      match connection_send wire (connection b) with
      | (Abrupt e, c) => (Abrupt e, {| connection := c; sent := sent b |})
      | (Normal _, c) =>
          (send_listeners broadcastMsg,
           {| connection := c; sent := sent b ++ [broadcastMsg] |})
      end
  end.

End Broadcast.

Arguments connection {BroadcastPacket Connection} b.
Arguments sent {BroadcastPacket Connection} b.

(** The controller in the role of the connection: [send] is a synchronous
    method, it returns or throws (it has no [await], so the last case does
    not arise). *)
Definition LoRaE32_connection_send (data : bytes) (m : Machine)
  : completion unit * Machine :=
  match run (send data) m with
  | Resolved _ m' => (Normal tt, m')
  | Rejected e m' => (Abrupt e, m')
  | Pending _ m' => (Normal tt, m')
  end.

(** A stand-in for the packet codec of [packet.js] to run the sender on: a
    packet is its payload behind a two-byte address, the inverse of
    [sample_from]. *)
Definition sample_toTypedArray (payload : bytes) : completion bytes :=
  Normal (0xff :: 0xff :: payload).

(** A reply to the read-configuration command under another header, and
    the register it parses to under [E32]. *)
Definition sample_bad_reply : list bytes := [[0xc2; 0; 1; 0x1a]; [0x17; 0x44]].

Definition sample_bad_config : Config :=
  {| header := 0xc2; highAddress := 0; lowAddress := 1;
     airRate := 0x02; baudRate := 0x18; parityBit := 0;
     channel := 0x17; FEC := 0x04; driveMode := 0x40;
     transmissionMode := 0; transmissionPower := 0; wakeUpTime := 0 |}.

(** A register whose fields are not all bytes. *)
Definition sample_wide_config : Config :=
  {| header := 0x1c0; highAddress := -1; lowAddress := 0x101;
     airRate := 0x02; baudRate := 0x18; parityBit := 0x1c0;
     channel := 0x17; FEC := 0x04; driveMode := 0x40;
     transmissionMode := 0x80; transmissionPower := 0x03;
     wakeUpTime := 0x100000038 |}.

(** The beginning of a reply that never gets finished. *)
Definition sample_short_reply : list bytes := [[0xc0; 0]; [1]].


(** A byte as a [Uint8Array] holds it. *)
Definition is_byte (b : Z) : Prop := 0 <= b < 256.

(** ** Properties the facts below are stated with *)

(** The buffer keeps its length and the cursor stays inside it. *)
Definition well_formed (r : Receiver) : Prop :=
  length (buf r) = packetLength r /\ (cursor r <= packetLength r)%nat.

(** The recorded mode once a method has run, however it ended. *)
Definition mode_after {A : Type} (o : Outcome A) : Mode :=
  mode (this (final o)).

(** Methods without an assignment to [this.mode]. *)

Fixpoint keeps_mode {A : Type} (p : Async A) : Prop :=
  match p with
  | Return _ | Throw _ => True
  | Perform _ k => keeps_mode k
  | ReadThis k => forall t, keeps_mode (k t)
  | Assign a k =>
      match a with Mode_field _ => False | _ => keeps_mode k end
  | DigitalRead _ k => forall l, keeps_mode (k l)
  | AwaitReceive _ k => forall b, keeps_mode (k b)
  end.

(** Methods whose assignments to [this] all pass [allowed]. *)
Fixpoint assigns_only {A : Type} (allowed : Assignment -> bool)
         (p : Async A) : Prop :=
  match p with
  | Return _ | Throw _ => True
  | Perform _ k => assigns_only allowed k
  | ReadThis k => forall t, assigns_only allowed (k t)
  | Assign a k => allowed a = true /\ assigns_only allowed k
  | DigitalRead _ k => forall l, assigns_only allowed (k l)
  | AwaitReceive _ k => forall b, assigns_only allowed (k b)
  end.

Definition no_assignment (a : Assignment) : bool := false.

Definition config_assignment (a : Assignment) : bool :=
  match a with
  | Config_field _ => true
  | Mode_field _ | Version_field _ => false
  end.

(** The machine with another recorded mode. *)
Definition with_mode (md : Mode) (m : Machine) : Machine :=
  {| this := assign (Mode_field md) (this m); trace := trace m;
     inbox := inbox m; pin_level := pin_level m |}.

(** * Facts *)

Lemma Mode_eqb_spec (a b : Mode) : reflect (a = b) (Mode_eqb a b).
Proof. destruct a, b; constructor; congruence. Qed.

(** ** Facts about the byte-accumulation primitive *)

Lemma Uint8Array_set_length (target source : bytes) (offset : nat) b :
  Uint8Array_set target source offset = Normal b ->
  length b = length target.
Proof.
  unfold Uint8Array_set.
  destruct (Nat.ltb_spec (length target) (offset + length source));
    [discriminate|].
  intros [= <-].
  rewrite !length_app, length_firstn, length_skipn. lia.
Qed.

Lemma new_Receiver_well_formed (n : nat) : well_formed (new_Receiver n).
Proof.
  split; cbn; [apply repeat_length | lia].
Qed.

Lemma handler_continues (r r' : Receiver) (data : bytes) :
  well_formed r ->
  handler r data = Continues r' ->
  well_formed r' /\ packetLength r' = packetLength r
  /\ cursor r' = (cursor r + length data)%nat
  /\ (cursor r' < packetLength r)%nat.
Proof.
  intros [Hlen Hcur]. unfold handler.
  destruct (Uint8Array_set (buf r) data (cursor r)) as [b|e] eqn:Hset;
    [|discriminate].
  apply Uint8Array_set_length in Hset.
  destruct (Nat.leb_spec (packetLength r) (cursor r + length data));
    [discriminate|].
  intros [= <-]. unfold well_formed. cbn. repeat split; lia.
Qed.

Lemma handler_resolves (r : Receiver) (data b : bytes) :
  well_formed r ->
  handler r data = Resolves b ->
  length b = packetLength r
  /\ (cursor r + length data = packetLength r)%nat.
Proof.
  intros [Hlen Hcur]. unfold handler, Uint8Array_set.
  destruct (Nat.ltb_spec (length (buf r)) (cursor r + length data));
    [discriminate|].
  destruct (Nat.leb_spec (packetLength r) (cursor r + length data));
    [|discriminate].
  intros [= <-]. split; [|lia].
  rewrite !length_app, length_firstn, length_skipn. lia.
Qed.

(** A chunk is refused exactly when it would run past the end of the
    buffer. *)
Lemma handler_throws (r : Receiver) (data : bytes) :
  well_formed r ->
  (packetLength r < cursor r + length data)%nat <->
  exists e, handler r data = Throws e.
Proof.
  intros [Hlen Hcur]. unfold handler, Uint8Array_set. rewrite Hlen.
  destruct (Nat.ltb_spec (packetLength r) (cursor r + length data)).
  - split; [eauto | auto].
  - split; [lia|].
    intros [e He].
    destruct (packetLength r <=? cursor r + length data)%nat; discriminate.
Qed.

Lemma logged_fulfilled (a : Action) (f : Fed) b log rest :
  logged a f = Fulfilled b log rest ->
  exists log', f = Fulfilled b log' rest.
Proof. destruct f; cbn; intros [= -> <- ->]; eauto. Qed.

(** Whatever the chunks, a fulfilled [receive] hands over a buffer of the
    requested length. *)
Lemma feed_fulfilled_length (chunks : list bytes) :
  forall r b log rest,
    well_formed r ->
    feed r chunks = Fulfilled b log rest ->
    length b = packetLength r.
Proof.
  induction chunks as [|data chunks IH]; intros r b log rest Hwf; cbn;
    [discriminate|].
  destruct (handler r data) as [b'|r'|e] eqn:Hh.
  - intros [= <- _ _]. eapply handler_resolves; eauto.
  - intros Hf. destruct (handler_continues _ _ _ Hwf Hh) as (Hwf' & Hp & _).
    rewrite <- Hp. eapply IH; eauto.
  - intros Hf. apply logged_fulfilled in Hf as [log' Hf]. eapply IH; eauto.
Qed.

(** Chunks that add up to exactly the missing bytes fulfil the [receive]
    with the bytes in arrival order, and no chunk is refused.  What is left
    for the next listener is the rest, after the empty chunks that may have
    trailed the reply. *)
Lemma feed_exact (cs : list bytes) :
  forall r rest,
    well_formed r ->
    (cursor r < packetLength r)%nat ->
    (cursor r + length (concat cs) = packetLength r)%nat ->
    exists tail,
      concat tail = []
      /\ feed r (cs ++ rest)
         = Fulfilled (firstn (cursor r) (buf r) ++ concat cs) []
             (tail ++ rest).
Proof.
  induction cs as [|data cs IH]; intros r rest Hwf Hlt Hsum; cbn in *;
    [lia|].
  rewrite length_app in Hsum. destruct Hwf as [Hlen Hcur].
  unfold handler, Uint8Array_set.
  destruct (Nat.ltb_spec (length (buf r)) (cursor r + length data)); [lia|].
  assert (Hpre : firstn (cursor r + length data)
                   (firstn (cursor r) (buf r) ++ data
                    ++ skipn (cursor r + length data) (buf r))
                 = firstn (cursor r) (buf r) ++ data).
  { rewrite app_assoc.
    replace (cursor r + length data)%nat
      with (length (firstn (cursor r) (buf r) ++ data) + 0)%nat
      at 1 by (rewrite length_app, length_firstn; lia).
    rewrite firstn_app_2. cbn. apply app_nil_r. }
  destruct (Nat.leb_spec (packetLength r) (cursor r + length data)).
  - assert (Hnil : concat cs = []) by (apply length_zero_iff_nil; lia).
    exists cs. split; [assumption|]. f_equal.
    rewrite Hnil, skipn_all2 by lia. reflexivity.
  - set (r' := {| packetLength := packetLength r;
                  buf := firstn (cursor r) (buf r) ++ data
                         ++ skipn (cursor r + length data) (buf r);
                  cursor := (cursor r + length data)%nat |}).
    destruct (IH r' rest) as (tail & Htail & Hfeed).
    + split; cbn; [|lia].
      rewrite !length_app, length_firstn, length_skipn. lia.
    + cbn. lia.
    + cbn. lia.
    + exists tail. split; [assumption|]. rewrite Hfeed. cbn.
      rewrite Hpre, <- app_assoc. reflexivity.
Qed.

(** Chunks that stay short of the missing bytes leave the handler attached:
    there is no other way out of [receive]. *)
Lemma feed_short (chunks : list bytes) :
  forall r,
    well_formed r ->
    (cursor r + length (concat chunks) < packetLength r)%nat ->
    exists r',
      feed r chunks = Waiting r' []
      /\ cursor r' = (cursor r + length (concat chunks))%nat.
Proof.
  induction chunks as [|data chunks IH]; intros r Hwf Hsum; cbn in *.
  - exists r. split; [reflexivity | lia].
  - rewrite length_app in Hsum.
    destruct (handler r data) as [b|r'|e] eqn:Hh.
    + apply (handler_resolves _ _ _ Hwf) in Hh. lia.
    + destruct (handler_continues _ _ _ Hwf Hh) as (Hwf' & Hp & Hc & _).
      destruct (IH r' Hwf') as (r'' & Hfeed & Hcur); [lia|].
      exists r''. split; [assumption|]. rewrite length_app. lia.
    + assert (packetLength r < cursor r + length data)%nat
        by (apply handler_throws; eauto).
      lia.
Qed.

(** ** Facts about the numbers on the wire *)

Lemma toInt32_testbit (z i : Z) :
  0 <= i < 32 -> Z.testbit (toInt32 z) i = Z.testbit z i.
Proof.
  intros Hi.
  assert (H : toInt32 z mod 2 ^ 32 = z mod 2 ^ 32).
  { unfold toInt32. rewrite Zminus_mod_idemp_l. f_equal. lia. }
  rewrite <- (Z.mod_pow2_bits_low (toInt32 z) 32 i) by lia.
  rewrite H. apply Z.mod_pow2_bits_low. lia.
Qed.

Lemma bitor_testbit (a b i : Z) :
  0 <= i < 32 ->
  Z.testbit (a .| b) i = Z.testbit a i || Z.testbit b i.
Proof.
  intros Hi. unfold bitor. rewrite Z.lor_spec, !toInt32_testbit by lia.
  reflexivity.
Qed.

Lemma toUint8_low_bits (a b : Z) :
  (forall i, 0 <= i < 8 -> Z.testbit a i = Z.testbit b i) ->
  toUint8 a = toUint8 b.
Proof.
  intros H. unfold toUint8. change 256 with (2 ^ 8).
  apply Z.bits_inj'. intros i Hi.
  rewrite !Z.testbit_mod_pow2 by lia.
  destruct (Z.ltb_spec i 8); [|reflexivity].
  rewrite H by lia. reflexivity.
Qed.

(** The speed byte that goes on the wire is the bitwise or of its three
    fields, cut to eight bits. *)
Lemma toUint8_bitor3 (a b c : Z) :
  toUint8 (a .| b .| c) = Z.lor (Z.lor a b) c mod 256.
Proof.
  apply toUint8_low_bits. intros i Hi.
  rewrite !bitor_testbit, !Z.lor_spec by lia. reflexivity.
Qed.

(** The option byte likewise, of its five fields. *)
Lemma toUint8_bitor5 (a b c d e : Z) :
  toUint8 (a .| b .| c .| d .| e)
  = Z.lor (Z.lor (Z.lor (Z.lor a b) c) d) e mod 256.
Proof.
  apply toUint8_low_bits. intros i Hi.
  rewrite !bitor_testbit, !Z.lor_spec by lia. reflexivity.
Qed.

(** ** Facts about [run] *)

Lemma run_bind {A B : Type} (p : Async A) (f : A -> Async B) :
  forall m,
    run (bind p f) m
    = match run p m with
      | Resolved a m' => run (f a) m'
      | Rejected e m' => Rejected e m'
      | Pending r m' => Pending r m'
      end.
Proof.
  induction p as [a|e|act k IH|k IH|a k IH|pin k IH|n k IH]; intros m; cbn;
    auto.
  destruct (feed (new_Receiver n) (inbox m)); auto.
Qed.

(** An [await this.receive(n)] whose reply arrives as chunks adding up to
    [n] bytes resumes with those bytes. *)
Lemma run_receive_exact {A : Type} (n : nat) (k : bytes -> Async A)
      (m : Machine) (cs rest : list bytes) :
  inbox m = cs ++ rest ->
  length (concat cs) = n ->
  (0 < n)%nat ->
  exists tail,
    concat tail = []
    /\ run (AwaitReceive n k) m
       = run (k (concat cs))
           (listened [UartOnData; UartOffData] (tail ++ rest) m).
Proof.
  intros Hin Hlen Hpos. cbn. rewrite Hin.
  destruct (feed_exact cs (new_Receiver n) rest) as (tail & Htail & Hfeed);
    [apply new_Receiver_well_formed | cbn; lia | cbn; lia |].
  exists tail. split; [assumption|]. rewrite Hfeed. reflexivity.
Qed.

(** With fewer bytes than requested in all the chunks to come, the
    [await] never resumes. *)
Lemma run_receive_short {A : Type} (n : nat) (k : bytes -> Async A)
      (m : Machine) :
  (length (concat (inbox m)) < n)%nat ->
  exists r,
    run (AwaitReceive n k) m = Pending r (listened [UartOnData] [] m)
    /\ cursor r = length (concat (inbox m)).
Proof.
  intros Hlen. cbn.
  destruct (feed_short (inbox m) (new_Receiver n)) as (r & Hfeed & Hcur);
    [apply new_Receiver_well_formed | cbn; lia |].
  exists r. rewrite Hfeed. split; [reflexivity | exact Hcur].
Qed.

Lemma run_perform {B : Type} (act : Action) (f : unit -> Async B)
      (m : Machine) :
  run (bind (perform act) f) m = run (f tt) (note [act] m).
Proof. reflexivity. Qed.

Lemma run_assign_this {B : Type} (a : Assignment) (f : unit -> Async B)
      (m : Machine) :
  run (bind (assign_this a) f) m = run (f tt) (store a m).
Proof. reflexivity. Qed.

Lemma run_call {A B : Type} (c : completion A) (f : A -> Async B)
      (m : Machine) :
  run (bind (call c) f) m
  = match c with
    | Normal a => run (f a) m
    | Abrupt e => Rejected e m
    end.
Proof. destruct c; reflexivity. Qed.

Lemma run_await_receive {B : Type} (n : nat) (f : bytes -> Async B)
      (m : Machine) (cs rest : list bytes) :
  inbox m = cs ++ rest ->
  length (concat cs) = n ->
  (0 < n)%nat ->
  exists tail,
    concat tail = []
    /\ run (bind (receive n) f) m
       = run (f (concat cs))
           (listened [UartOnData; UartOffData] (tail ++ rest) m).
Proof.
  intros Hin Hlen Hpos.
  destruct (run_receive_exact n Return m cs rest Hin Hlen Hpos)
    as (tail & Htail & Hrun).
  exists tail. split; [assumption|].
  unfold receive. rewrite run_bind, Hrun. reflexivity.
Qed.

Lemma note_note (a b : list Action) (m : Machine) :
  note b (note a m) = note (a ++ b) m.
Proof. unfold note; cbn. now rewrite app_assoc. Qed.

Lemma listened_note (a b : list Action) (rest : list bytes) (m : Machine) :
  listened b rest (note a m) = listened (a ++ b) rest m.
Proof. unfold listened, note; cbn. now rewrite app_assoc. Qed.

Lemma note_listened (a b : list Action) (rest : list bytes) (m : Machine) :
  note b (listened a rest m) = listened (a ++ b) rest m.
Proof. unfold listened, note; cbn. now rewrite app_assoc. Qed.

(** No method assigns [isSetup]: [Assignment] has no case for it. *)
Lemma isSetup_never_assigned {A : Type} (p : Async A) :
  forall m, isSetup (this (final (run p m))) = isSetup (this m).
Proof.
  induction p as [a|e|act k IH|k IH|a k IH|pin k IH|n k IH]; intros m; cbn;
    auto.
  - rewrite IH. reflexivity.
  - rewrite IH. destruct a; reflexivity.
  - destruct (feed (new_Receiver n) (inbox m)); cbn; auto.
    rewrite IH. reflexivity.
Qed.

Lemma keeps_mode_bind {A B : Type} (p : Async A) (f : A -> Async B) :
  keeps_mode p -> (forall a, keeps_mode (f a)) -> keeps_mode (bind p f).
Proof.
  induction p as [a|e|act k IH|k IH|a k IH|pin k IH|n k IH]; cbn; auto.
  destruct a; auto; contradiction.
Qed.

Lemma keeps_mode_call {A : Type} (c : completion A) : keeps_mode (call c).
Proof. destruct c; exact I. Qed.

Lemma keeps_mode_run {A : Type} (p : Async A) :
  keeps_mode p ->
  forall m, mode (this (final (run p m))) = mode (this m).
Proof.
  induction p as [a|e|act k IH|k IH|a k IH|pin k IH|n k IH]; cbn;
    intros Hk m; auto.
  - rewrite IH by assumption. reflexivity.
  - destruct a; try contradiction; rewrite IH by assumption; reflexivity.
  - destruct (feed (new_Receiver n) (inbox m)); cbn; auto.
    rewrite IH by auto. reflexivity.
Qed.

Create HintDb keeps.

#[local] Hint Resolve keeps_mode_call : keeps.
#[local] Hint Extern 1 (keeps_mode (bind _ _)) =>
  apply keeps_mode_bind : keeps.
#[local] Hint Extern 2 (keeps_mode (if ?b then _ else _)) =>
  destruct b : keeps.
#[local] Hint Extern 3 (keeps_mode _) => cbn; intros : keeps.

Ltac keeps := unfold perform, this_, assign_this; auto 12 with keeps.

Section ControllerFacts.

Variable K : Constants.
Variable Address : Type.
Variable new_Address : option Config -> completion Address.

Lemma assertSleepMode_keeps_mode : keeps_mode assertSleepMode.
Proof. unfold assertSleepMode. keeps. Qed.

Lemma assertReady_keeps_mode : keeps_mode assertReady.
Proof. unfold assertReady. keeps. Qed.

#[local] Hint Resolve assertSleepMode_keeps_mode assertReady_keeps_mode
  : keeps.

Lemma readParameters_keeps_mode : keeps_mode (readParameters K).
Proof. unfold readParameters, receive. keeps. Qed.

Lemma readVersion_keeps_mode : keeps_mode readVersion.
Proof. unfold readVersion, receive. keeps. Qed.

#[local] Hint Resolve readParameters_keeps_mode readVersion_keeps_mode
  : keeps.

Lemma setConfig_keeps_mode c : keeps_mode (setConfig K c).
Proof. unfold setConfig, receive. keeps. Qed.

Lemma resetConfig_keeps_mode : keeps_mode (resetConfig K).
Proof. unfold resetConfig. keeps. Qed.

Lemma getConfig_keeps_mode : keeps_mode (getConfig K).
Proof. unfold getConfig. keeps. Qed.

Lemma getAddress_keeps_mode : keeps_mode (getAddress Address new_Address).
Proof. unfold getAddress. keeps. Qed.

Lemma getVersion_keeps_mode : keeps_mode getVersion.
Proof. unfold getVersion. keeps. Qed.

Lemma getMode_keeps_mode : keeps_mode getMode.
Proof. unfold getMode. keeps. Qed.

Lemma close_keeps_mode : keeps_mode close.
Proof. unfold close. cbn. intros t. destruct (auxWatcherId t); exact I. Qed.

Lemma send_keeps_mode data : keeps_mode (send data).
Proof. unfold send. keeps. Qed.

(** *** The two guards *)

Lemma run_assertSleepMode_in_SLEEP m :
  mode (this m) = SLEEP -> run assertSleepMode m = Resolved tt m.
Proof. intros H. cbn. rewrite H. reflexivity. Qed.

Lemma run_assertSleepMode_elsewhere m :
  mode (this m) <> SLEEP ->
  run assertSleepMode m
  = Rejected (IllegalOperationError
                "Reading parameters while not in sleep mode") m.
Proof.
  intros H. cbn. destruct (Mode_eqb_spec (mode (this m)) SLEEP);
    [contradiction | reflexivity].
Qed.

(** The guard of the accessors compares a field that holds [undefined]
    with [false], so it lets every call through. *)
Lemma run_assertReady m :
  isSetup (this m) = undefined -> run assertReady m = Resolved tt m.
Proof. intros H. cbn. rewrite H. reflexivity. Qed.

(** *** Accessors before [setup] *)

(** C1, evaluated on the code at a controller that was only constructed:
    [getConfig()] and [getVersion()] do not fail there.  [getConfig()]
    returns a fresh default [Config] and [getVersion()] returns [null],
    because [isSetup] is [undefined] and [undefined == false] is false. *)
Theorem accessors_before_setup_do_not_fail (chunks : list bytes) :
  run (getConfig K) (boot chunks)
  = Resolved (new_Config K) (boot chunks)
  /\ run getVersion (boot chunks) = Resolved None (boot chunks).
Proof. split; reflexivity. Qed.

(** *** The sleep gate *)

(** C2: outside SLEEP each register operation is rejected with an
    [IllegalOperationError] and leaves the machine as it found it: no
    byte is written to the UART, no effect of any kind is performed. *)
Theorem sleep_gated_operations_refuse_outside_SLEEP
        (m : Machine) (cfg : Config) :
  mode (this m) <> SLEEP ->
  exists msg,
    run (readParameters K) m = Rejected (IllegalOperationError msg) m
    /\ run (setConfig K cfg) m = Rejected (IllegalOperationError msg) m
    /\ run (resetConfig K) m = Rejected (IllegalOperationError msg) m
    /\ run readVersion m = Rejected (IllegalOperationError msg) m.
Proof.
  intros H. eexists.
  unfold readParameters, setConfig, resetConfig, readVersion.
  rewrite !run_bind, (run_assertSleepMode_elsewhere m H).
  repeat split; reflexivity.
Qed.

(** *** The byte-accumulation primitive inside a method *)

(** A reply that adds up to the requested length completes [receive] with
    the bytes in arrival order, and the listener is detached. *)
Lemma receive_completes_on_exact_fill (n : nat) (m : Machine)
      (cs rest : list bytes) :
  inbox m = cs ++ rest ->
  length (concat cs) = n ->
  (0 < n)%nat ->
  exists tail,
    concat tail = []
    /\ run (receive n) m
       = Resolved (concat cs)
           (listened [UartOnData; UartOffData] (tail ++ rest) m).
Proof.
  intros Hin Hlen Hpos. unfold receive.
  destruct (run_receive_exact n Return m cs rest Hin Hlen Hpos)
    as (tail & Htail & Hrun).
  exists tail. split; [assumption | exact Hrun].
Qed.

(** A reply that stays short never completes it: there is no timeout. *)
Lemma receive_pending_while_short (n : nat) (m : Machine) :
  (length (concat (inbox m)) < n)%nat ->
  exists r,
    run (receive n) m = Pending r (listened [UartOnData] [] m)
    /\ cursor r = length (concat (inbox m)).
Proof. intros Hlen. unfold receive. now apply run_receive_short. Qed.

(** A completed [receive] always hands over [n] bytes. *)
Lemma receive_result_length (n : nat) (m m' : Machine) (b : bytes) :
  run (receive n) m = Resolved b m' -> length b = n.
Proof.
  cbn. destruct (feed (new_Receiver n) (inbox m)) as [b' log rest|r log]
    eqn:Hfeed; [|discriminate].
  intros [= <- _].
  apply (feed_fulfilled_length _ _ _ _ _ (new_Receiver_well_formed n) Hfeed).
Qed.

(** C3, evaluated on the code: [receive(6)] gets four bytes and then four
    more.  Eight bytes have arrived, the second chunk does not fit the
    six-byte buffer, [buf.set] raises a [RangeError] inside the handler,
    the cursor stays at four, the promise stays pending and the listener
    stays attached.  A later chunk of two bytes then completes the call
    with a buffer from which the refused bytes are missing. *)
Theorem receive_stalls_on_an_overrunning_chunk :
  run (receive 6) (boot [[1; 2; 3; 4]; [5; 6; 7; 8]])
  = Pending {| packetLength := 6; buf := [1; 2; 3; 4; 0; 0]; cursor := 4 |}
      {| this := new_LoRaE32;
         trace := [UartOnData;
                   UncaughtInHandler
                     (RangeError "offset is out of bounds")];
         inbox := [];
         pin_level := pin_level (boot []) |}
  /\ run (receive 6) (boot [[1; 2; 3; 4]; [5; 6; 7; 8]; [9; 10]])
     = Resolved [1; 2; 3; 4; 9; 10]
         {| this := new_LoRaE32;
            trace := [UartOnData;
                      UncaughtInHandler
                        (RangeError "offset is out of bounds");
                      UartOffData];
            inbox := [];
            pin_level := pin_level (boot []) |}.
Proof. split; reflexivity. Qed.

(** *** Reading the configuration *)

Lemma Config_from_six (b : bytes) :
  length b = 6%nat -> exists c, Config_from K b = Normal c.
Proof.
  intros H. do 7 (destruct b as [|? b]; try discriminate).
  cbn. eauto.
Qed.

Lemma run_readParameters (m : Machine) (cs rest : list bytes) :
  mode (this m) = SLEEP ->
  inbox m = cs ++ rest ->
  length (concat cs) = 6%nat ->
  exists c tail,
    concat tail = []
    /\ Config_from K (concat cs) = Normal c
    /\ run (readParameters K) m
       = let m' := listened [UartWrite [0xc1; 0xc1; 0xc1];
                             UartOnData; UartOffData] (tail ++ rest) m in
         if header c =? HEADER K then Resolved c m'
         else Rejected ValidationError_BadHeader m'.
Proof.
  intros Hmode Hin Hlen.
  destruct (Config_from_six (concat cs) Hlen) as [c Hc].
  unfold readParameters.
  rewrite run_bind, (run_assertSleepMode_in_SLEEP m Hmode), run_perform.
  destruct (run_await_receive 6
              (fun result => bind (call (Config_from K result))
                               (fun c => call (Config_assert K c)))
              (note [UartWrite PACKET_GET_CONFIG] m) cs rest)
    as (tail & Htail & Hrun); [exact Hin | exact Hlen | lia |].
  exists c, tail. split; [assumption|]. split; [assumption|].
  rewrite Hrun, Hc, listened_note. cbn.
  unfold Config_assert. destruct (header c =? HEADER K); reflexivity.
Qed.

Lemma run_resetConfig (m : Machine) (cs rest : list bytes) :
  mode (this m) = SLEEP ->
  inbox m = cs ++ rest ->
  length (concat cs) = 6%nat ->
  exists c tail,
    concat tail = []
    /\ Config_from K (concat cs) = Normal c
    /\ run (resetConfig K) m
       = let m' := listened [UartWrite [0xc4; 0xc4; 0xc4]; Wait 50;
                             UartWrite [0xc1; 0xc1; 0xc1];
                             UartOnData; UartOffData] (tail ++ rest) m in
         if header c =? HEADER K
         then Resolved tt (store (Config_field c) m')
         else Rejected ValidationError_BadHeader m'.
Proof.
  intros Hmode Hin Hlen.
  destruct (run_readParameters
              (note [UartWrite [0xc4; 0xc4; 0xc4]; Wait 50] m) cs rest)
    as (c & tail & Htail & Hc & Hrun); [exact Hmode | exact Hin | exact Hlen |].
  exists c, tail. split; [assumption|]. split; [assumption|].
  unfold resetConfig.
  rewrite run_bind, (run_assertSleepMode_in_SLEEP m Hmode).
  cbv zeta. rewrite !run_perform, note_note, run_bind.
  change (note ([UartWrite (Uint8Array_of [0xc4; 0xc4; 0xc4])] ++ [Wait 50])
            m)
    with (note [UartWrite [0xc4; 0xc4; 0xc4]; Wait 50] m).
  rewrite Hrun. cbv zeta. rewrite listened_note.
  destruct (header c =? HEADER K); reflexivity.
Qed.

(** C4, as the code has it: in SLEEP, with a reply of six bytes,
    [readParameters] writes [[0xC1,0xC1,0xC1]], waits for the six bytes,
    parses them, fails with [BadHeader] on a wrong sentinel and otherwise
    returns the parsed register.  It leaves the held configuration as it
    was; its caller [resetConfig] assigns the returned register to it. *)
Theorem readParameters_returns_the_validated_reply
        (m : Machine) (cs rest : list bytes) :
  mode (this m) = SLEEP ->
  inbox m = cs ++ rest ->
  length (concat cs) = 6%nat ->
  exists c tail,
    concat tail = []
    /\ Config_from K (concat cs) = Normal c
    /\ run (readParameters K) m
       = (let m' := listened [UartWrite [0xc1; 0xc1; 0xc1];
                              UartOnData; UartOffData] (tail ++ rest) m in
          if header c =? HEADER K then Resolved c m'
          else Rejected ValidationError_BadHeader m')
    /\ config (this (final (run (readParameters K) m))) = config (this m)
    /\ (header c = HEADER K ->
        config (this (final (run (resetConfig K) m))) = Some c).
Proof.
  intros Hmode Hin Hlen.
  destruct (run_readParameters m cs rest Hmode Hin Hlen)
    as (c & tail & Htail & Hc & Hrun).
  destruct (run_resetConfig m cs rest Hmode Hin Hlen)
    as (c' & tail' & _ & Hc' & Hreset).
  assert (c' = c) as -> by congruence.
  exists c, tail. repeat split; try assumption.
  - rewrite Hrun. cbv zeta. destruct (header c =? HEADER K); reflexivity.
  - intros Hh. rewrite Hreset. cbv zeta.
    apply Z.eqb_eq in Hh. rewrite Hh. reflexivity.
Qed.

(** *** Writing the configuration *)

(** C5: in SLEEP, [setConfig(cfg)] writes the six bytes of [cfg] (each
    number cut to eight bits, the speed and option bytes or-ed from their
    fields), waits for six bytes of echo, and holds afterwards the parse
    of the echo, whatever [cfg] was. *)
Theorem setConfig_adopts_the_echo
        (m : Machine) (cfg : Config) (cs rest : list bytes) :
  mode (this m) = SLEEP ->
  inbox m = cs ++ rest ->
  length (concat cs) = 6%nat ->
  exists c tail,
    concat tail = []
    /\ Config_from K (concat cs) = Normal c
    /\ run (setConfig K cfg) m
       = Resolved tt
           (store (Config_field c)
              (listened
                 [UartWrite
                    [header cfg mod 256;
                     highAddress cfg mod 256;
                     lowAddress cfg mod 256;
                     Z.lor (Z.lor (airRate cfg) (baudRate cfg))
                       (parityBit cfg) mod 256;
                     channel cfg mod 256;
                     Z.lor (Z.lor (Z.lor (Z.lor (FEC cfg) (driveMode cfg))
                                     (transmissionMode cfg))
                              (transmissionPower cfg))
                       (wakeUpTime cfg) mod 256];
                  UartOnData; UartOffData] (tail ++ rest) m))
    /\ config (this (final (run (setConfig K cfg) m))) = Some c.
Proof.
  intros Hmode Hin Hlen.
  destruct (Config_from_six (concat cs) Hlen) as [c Hc].
  unfold setConfig.
  rewrite run_bind, (run_assertSleepMode_in_SLEEP m Hmode).
  cbv zeta. rewrite run_perform.
  match goal with
  | |- context [run (bind (receive 6) ?f) ?m'] =>
      destruct (run_await_receive 6 f m' cs rest)
        as (tail & Htail & Hrun); [exact Hin | exact Hlen | lia |]
  end.
  exists c, tail. split; [assumption|]. split; [assumption|].
  rewrite Hrun, run_call, Hc, listened_note.
  unfold Uint8Array_of. cbn [map app].
  rewrite toUint8_bitor3, toUint8_bitor5.
  split; reflexivity.
Qed.

(** *** Changing the mode *)

(** C6: for every mode, [setMode] drives M0 and M1 to the levels of the
    table, then records the mode, then emits ['mode'], in that order, and
    it always resolves. *)
Theorem setMode_drives_pins_then_records_then_notifies
        (new_mode : Mode) (m : Machine) :
  exists l0 l1,
    In (new_mode, (l0, l1))
       [(NORMAL, (LOW, LOW)); (WAKE_UP, (HIGH, LOW));
        (POWER_SAVING, (LOW, HIGH)); (SLEEP, (HIGH, HIGH))]
    /\ run (setMode new_mode) m
       = Resolved tt
           {| this := assign (Mode_field new_mode) (this m);
              trace := trace m ++ [DigitalWrite M0 l0; DigitalWrite M1 l1;
                                   Assigned (Mode_field new_mode);
                                   EmitMode new_mode];
              inbox := inbox m;
              pin_level := pin_level m |}
    /\ mode (this (final (run (setMode new_mode) m))) = new_mode.
Proof.
  destruct new_mode;
    [exists LOW, LOW | exists HIGH, LOW | exists LOW, HIGH
     | exists HIGH, HIGH];
    (split; [cbn; tauto|]); (split; [|reflexivity]);
    cbn; unfold store, note; cbn; rewrite <- !app_assoc; reflexivity.
Qed.

(** *** Reading the version *)

Lemma run_readVersion (m : Machine) (cs rest : list bytes) (h md v f : Z) :
  mode (this m) = SLEEP ->
  inbox m = cs ++ rest ->
  concat cs = [h; md; v; f] ->
  exists tail,
    concat tail = []
    /\ run readVersion m
       = Resolved {| v_header := h; v_model := md;
                     v_version := v; v_features := f |}
           (listened [UartWrite [0xc3; 0xc3; 0xc3];
                      UartOnData; UartOffData] (tail ++ rest) m).
Proof.
  intros Hmode Hin Hcs. unfold readVersion.
  rewrite run_bind, (run_assertSleepMode_in_SLEEP m Hmode).
  cbv zeta. rewrite run_perform.
  match goal with
  | |- context [run (bind (receive 4) ?f) ?m'] =>
      destruct (run_await_receive 4 f m' cs rest)
        as (tail & Htail & Hrun);
        [exact Hin | rewrite Hcs; reflexivity | lia |]
  end.
  exists tail. split; [assumption|].
  rewrite Hrun, Hcs, listened_note. reflexivity.
Qed.

(** *** Setting up *)

(** With both replies on the line and the right sentinel, [setup]
    resolves holding the parsed register and the version, in SLEEP.  The
    accessors then return what was read. *)
Lemma run_setup (m : Machine) (cs vs rest : list bytes) (h md v f : Z) :
  inbox m = cs ++ vs ++ rest ->
  length (concat cs) = 6%nat ->
  concat vs = [h; md; v; f] ->
  exists c,
    Config_from K (concat cs) = Normal c
    /\ (header c = HEADER K ->
        exists m',
          run (setup K) m = Resolved tt m'
          /\ mode (this m') = SLEEP
          /\ config (this m') = Some c
          /\ version (this m')
             = Some {| v_header := h; v_model := md;
                       v_version := v; v_features := f |}
          /\ isSetup (this m') = isSetup (this m)).
Proof.
  intros Hin Hlen Hvs. unfold setup. rewrite run_bind.
  set (m1 := note [EmitMode SLEEP]
               (store (Mode_field SLEEP)
                  (note [DigitalWrite M1 HIGH]
                     (note [DigitalWrite M0 HIGH] m)))).
  change (run (setMode SLEEP) m) with (Resolved tt m1). cbv iota beta.
  destruct (run_readParameters m1 cs (vs ++ rest))
    as (c & tail & Htail & Hc & Hrun); [reflexivity | exact Hin | exact Hlen |].
  exists c. split; [assumption|]. intros Hh.
  apply Z.eqb_eq in Hh. rewrite run_bind, Hrun. cbv zeta. rewrite Hh.
  rewrite run_assign_this, run_bind.
  match goal with
  | |- context [run readVersion ?m3] =>
      destruct (run_readVersion m3 (tail ++ vs) rest h md v f)
        as (tail' & Htail' & Hrun');
        [reflexivity | cbn; now rewrite app_assoc
         | now rewrite concat_app, Htail |]
  end.
  rewrite Hrun'. eexists. split; [reflexivity|]. cbn. auto.
Qed.

Lemma accessors_after_setup (m m' : Machine) :
  isSetup (this m) = undefined ->
  run (setup K) m = Resolved tt m' ->
  run (getConfig K) m'
  = Resolved (Object_assign_Config K (config (this m'))) m'
  /\ run getVersion m' = Resolved (version (this m')) m'.
Proof.
  intros Hs Hrun.
  assert (Hs' : isSetup (this m') = undefined).
  { rewrite <- Hs. change m' with (final (Resolved tt m')).
    rewrite <- Hrun. apply isSetup_never_assigned. }
  unfold getConfig, getVersion.
  rewrite !run_bind, (run_assertReady m' Hs'). split; reflexivity.
Qed.

(** *** Sending *)

(** C10: [send] in SLEEP throws an [IllegalOperationError] and hands
    nothing to the data link; in the three other modes it passes the
    payload, unchanged, to the framed send of the data link. *)
Theorem send_is_refused_in_SLEEP_only (data : bytes) (m : Machine) :
  match mode (this m) with
  | SLEEP =>
      run (send data) m
      = Rejected (IllegalOperationError
                    "Attempt to send data while in sleep mode") m
  | NORMAL | WAKE_UP | POWER_SAVING =>
      run (send data) m = Resolved tt (note [LinkSend data] m)
  end.
Proof. cbn. destruct (mode (this m)); reflexivity. Qed.

(** *** The recorded mode *)

Lemma setup_ends_in_SLEEP (m : Machine) :
  mode_after (run (setup K) m) = SLEEP.
Proof.
  unfold setup, mode_after. rewrite run_bind.
  set (m1 := note [EmitMode SLEEP]
               (store (Mode_field SLEEP)
                  (note [DigitalWrite M1 HIGH]
                     (note [DigitalWrite M0 HIGH] m)))).
  change (run (setMode SLEEP) m) with (Resolved tt m1). cbv iota beta.
  transitivity (mode (this m1)); [|reflexivity].
  apply keeps_mode_run.
  unfold receive. keeps.
Qed.

(** C9: a constructed controller records SLEEP; [setMode] records its
    argument; every other method leaves the recorded mode as it found
    it, however it ends; and [setup], which calls [setMode(SLEEP)], ends
    in SLEEP. *)
Theorem mode_is_SLEEP_at_construction_and_set_by_setMode_only
        (m : Machine) (new_mode : Mode) (cfg : Config) (data : bytes)
        (n : nat) :
  mode new_LoRaE32 = SLEEP
  /\ mode_after (run (setMode new_mode) m) = new_mode
  /\ mode_after (run (setup K) m) = SLEEP
  /\ mode_after (run (receive n) m) = mode (this m)
  /\ mode_after (run waitQueue m) = mode (this m)
  /\ mode_after (run (readParameters K) m) = mode (this m)
  /\ mode_after (run (getConfig K) m) = mode (this m)
  /\ mode_after (run (getAddress Address new_Address) m) = mode (this m)
  /\ mode_after (run (setConfig K cfg) m) = mode (this m)
  /\ mode_after (run (resetConfig K) m) = mode (this m)
  /\ mode_after (run readVersion m) = mode (this m)
  /\ mode_after (run ready m) = mode (this m)
  /\ mode_after (run getVersion m) = mode (this m)
  /\ mode_after (run getMode m) = mode (this m)
  /\ mode_after (run close m) = mode (this m)
  /\ mode_after (run (send data) m) = mode (this m)
  /\ mode_after (run (write data) m) = mode (this m).
Proof.
  split; [reflexivity|]. split; [reflexivity|].
  split; [apply setup_ends_in_SLEEP|].
  unfold mode_after.
  repeat split; apply keeps_mode_run;
    auto using readParameters_keeps_mode, getConfig_keeps_mode,
      getAddress_keeps_mode, setConfig_keeps_mode, resetConfig_keeps_mode,
      readVersion_keeps_mode, getVersion_keeps_mode, getMode_keeps_mode,
      close_keeps_mode, send_keeps_mode;
    cbn; auto.
Qed.

End ControllerFacts.

(** ** Facts about the drain *)

Section DrainFacts.

Variable BroadcastPacket : Type.
Variable BroadcastPacket_from : bytes -> completion BroadcastPacket.
Variable message_listeners : BroadcastPacket -> completion unit.
Variable error_listeners : JsError -> completion unit.

Local Abbreviation callback :=
  (on_message BroadcastPacket BroadcastPacket_from
     message_listeners error_listeners).
Local Abbreviation deliver :=
  (connection_emit BroadcastPacket BroadcastPacket_from
     message_listeners error_listeners).
Local Abbreviation drained :=
  (drain BroadcastPacket BroadcastPacket_from
     message_listeners error_listeners).
Local Abbreviation outcome_of :=
  (events_of BroadcastPacket BroadcastPacket_from message_listeners).

Lemma on_message_effect (d : Drain BroadcastPacket) (msg : bytes) :
  subscribed (callback d msg) = subscribed d
  /\ emitted (callback d msg) = emitted d ++ outcome_of msg.
Proof.
  unfold on_message, events_of, emit.
  destruct (BroadcastPacket_from msg) as [p|e]; cbn.
  - destruct (message_listeners p) as [[]|e]; cbn.
    + auto.
    + destruct (error_listeners e); cbn; rewrite <- app_assoc; auto.
  - destruct (error_listeners e); cbn; auto.
Qed.

Lemma fold_connection_emit (frames : list bytes) :
  forall d,
    subscribed d = true ->
    subscribed (fold_left deliver frames d) = true
    /\ emitted (fold_left deliver frames d)
       = emitted d ++ flat_map outcome_of frames.
Proof.
  induction frames as [|msg frames IH]; intros d Hd; cbn.
  - rewrite app_nil_r. auto.
  - destruct (on_message_effect d msg) as [Hs He].
    unfold connection_emit at 2 4. rewrite Hd.
    destruct (IH (callback d msg)) as [Hs' He']; [congruence|].
    split; [assumption|]. rewrite He', He, <- app_assoc. reflexivity.
Qed.

(** C8: every frame goes through [BroadcastPacket.from]; a frame that
    fails to parse adds exactly one ['error'] event, a frame that parses
    is emitted as ['message'] (followed by an ['error'] event if a
    listener of ['message'] threw); the callback stays registered; and a
    well-formed frame that follows a malformed one is emitted as a
    message right after that frame's error. *)
Theorem drain_outlives_malformed_frames (frames : list bytes) :
  subscribed (drained frames) = true
  /\ emitted (drained frames)
     = flat_map
         (fun msg =>
            match BroadcastPacket_from msg with
            | Abrupt e => [ErrorEvent e]
            | Normal broadcastMsg =>
                Message broadcastMsg
                :: match message_listeners broadcastMsg with
                   | Normal _ => []
                   | Abrupt e => [ErrorEvent e]
                   end
            end) frames
  /\ (forall before bad good e broadcastMsg,
        frames = before ++ [bad; good] ->
        BroadcastPacket_from bad = Abrupt e ->
        BroadcastPacket_from good = Normal broadcastMsg ->
        exists after,
          emitted (drained frames)
          = emitted (drained before)
            ++ [ErrorEvent e; Message broadcastMsg] ++ after).
Proof.
  assert (H : forall fs,
             subscribed (drained fs) = true
             /\ emitted (drained fs) = flat_map outcome_of fs).
  { intros fs. unfold drain.
    apply (fold_connection_emit fs (new_Drain BroadcastPacket)).
    reflexivity. }
  split; [apply H|]. split; [apply H|].
  intros before bad good e p -> Hbad Hgood.
  destruct (H (before ++ [bad; good])) as [_ ->].
  destruct (H before) as [_ ->].
  rewrite flat_map_app. cbn. unfold events_of at 2 3.
  rewrite Hbad, Hgood. cbn.
  eexists. rewrite app_nil_r. reflexivity.
Qed.

End DrainFacts.

(** ** The facts at concrete inputs *)

Lemma sleep_gated_operations_refuse_outside_SLEEP_witness :
  mode (this (in_NORMAL sample_config_reply)) <> SLEEP
  /\ exists msg,
      let m := in_NORMAL sample_config_reply in
      run (readParameters E32) m = Rejected (IllegalOperationError msg) m
      /\ run (setConfig E32 sample_config) m
         = Rejected (IllegalOperationError msg) m
      /\ run (resetConfig E32) m = Rejected (IllegalOperationError msg) m
      /\ run readVersion m = Rejected (IllegalOperationError msg) m.
Proof.
  assert (H : mode (this (in_NORMAL sample_config_reply)) <> SLEEP)
    by (cbn; discriminate).
  split; [exact H|].
  exact (sleep_gated_operations_refuse_outside_SLEEP E32
           (in_NORMAL sample_config_reply) sample_config H).
Defined.

(** Against C4 as worded: in SLEEP, with a well-formed reply,
    [readParameters] returns the parsed register and the controller still
    holds no configuration. *)
Lemma readParameters_alone_adopts_nothing :
  mode (this (boot sample_config_reply)) = SLEEP
  /\ exists m',
      run (readParameters E32) (boot sample_config_reply)
      = Resolved sample_config m'
      /\ config (this m') = None
      /\ config (this m') <> Some sample_config.
Proof.
  split; [reflexivity|]. eexists. split; [reflexivity|].
  split; [reflexivity | discriminate].
Qed.

Lemma readParameters_returns_the_validated_reply_witness :
  (mode (this (boot sample_config_reply)) = SLEEP
   /\ inbox (boot sample_config_reply) = sample_config_reply ++ []
   /\ length (concat sample_config_reply) = 6%nat)
  /\ exists c tail,
      concat tail = []
      /\ Config_from E32 (concat sample_config_reply) = Normal c
      /\ run (readParameters E32) (boot sample_config_reply)
         = (let m' := listened [UartWrite [0xc1; 0xc1; 0xc1];
                                UartOnData; UartOffData] (tail ++ [])
                        (boot sample_config_reply) in
            if header c =? HEADER E32 then Resolved c m'
            else Rejected ValidationError_BadHeader m')
      /\ config (this (final (run (readParameters E32)
                                (boot sample_config_reply))))
         = config (this (boot sample_config_reply))
      /\ (header c = HEADER E32 ->
          config (this (final (run (resetConfig E32)
                                 (boot sample_config_reply)))) = Some c).
Proof.
  split; [repeat split|].
  apply (readParameters_returns_the_validated_reply E32
           (boot sample_config_reply) sample_config_reply []);
    reflexivity.
Defined.

Lemma setConfig_adopts_the_echo_witness :
  (mode (this (boot sample_config_reply)) = SLEEP
   /\ inbox (boot sample_config_reply) = sample_config_reply ++ []
   /\ length (concat sample_config_reply) = 6%nat)
  /\ exists c tail,
      concat tail = []
      /\ Config_from E32 (concat sample_config_reply) = Normal c
      /\ run (setConfig E32 (new_Config E32)) (boot sample_config_reply)
         = Resolved tt
             (store (Config_field c)
                (listened
                   [UartWrite [0xc0; 0; 0; 0x1a; 0x17; 0x44];
                    UartOnData; UartOffData] (tail ++ [])
                   (boot sample_config_reply)))
      /\ config (this (final (run (setConfig E32 (new_Config E32))
                                (boot sample_config_reply)))) = Some c.
Proof.
  split; [repeat split|].
  apply (setConfig_adopts_the_echo E32 (boot sample_config_reply)
           (new_Config E32) sample_config_reply []);
    reflexivity.
Defined.

(** The register held after [setConfig] is the one the device echoed, here
    with address 1, not the one the caller passed, with address 0. *)
Example setConfig_holds_the_echo_not_the_argument :
  config (this (final (run (setConfig E32 (new_Config E32))
                         (boot sample_config_reply))))
  = Some sample_config
  /\ sample_config <> new_Config E32.
Proof. split; [reflexivity | discriminate]. Qed.

(** The length check of [readVersion] on a buffer of three bytes. *)
Example readVersion_unpack_three_bytes :
  readVersion_unpack [0xc3; 0x32; 0x0d]
  = Abrupt (TypeError "Parameters didn't return exactly 4 bytes").
Proof. reflexivity. Qed.

Lemma drain_outlives_malformed_frames_witness :
  let drained := drain bytes sample_from (fun _ => Normal tt)
                   (fun _ => Normal tt) in
  let frames := [[1; 0; 7; 8]; [9]; [1; 0; 5]] in
  subscribed (drained frames) = true
  /\ emitted (drained frames)
     = [Message [7; 8];
        ErrorEvent (TypeError "malformed broadcast packet");
        Message [5]]
  /\ exists after,
      emitted (drained frames)
      = emitted (drained [[1; 0; 7; 8]])
        ++ [ErrorEvent (TypeError "malformed broadcast packet");
            Message [5]] ++ after.
Proof.
  destruct (drain_outlives_malformed_frames bytes sample_from
              (fun _ => Normal tt) (fun _ => Normal tt)
              [[1; 0; 7; 8]; [9]; [1; 0; 5]])
    as (Hs & He & Hnext).
  split; [exact Hs|]. split; [exact He|].
  apply (Hnext [[1; 0; 7; 8]] [9] [1; 0; 5]
           (TypeError "malformed broadcast packet") [5]);
    reflexivity.
Defined.

(** * Further facts about the controller and the broadcast layer *)

(** ** The byte-accumulation primitive, whatever arrives *)

Lemma run_await {B : Type} (n : nat) (f : bytes -> Async B) (m : Machine) :
  run (bind (receive n) f) m
  = match feed (new_Receiver n) (inbox m) with
    | Fulfilled b log rest =>
        run (f b) (listened (UartOnData :: log ++ [UartOffData]) rest m)
    | Waiting r log => Pending r (listened (UartOnData :: log) [] m)
    end.
Proof. reflexivity. Qed.

(** Every effect of a method is appended to the trace: nothing is ever
    taken back. *)
Lemma trace_extends {A : Type} (p : Async A) :
  forall m, exists acts, trace (final (run p m)) = trace m ++ acts.
Proof.
  induction p as [a|e|act k IH|k IH|a k IH|pin k IH|n k IH]; intros m; cbn.
  - exists []. now rewrite app_nil_r.
  - exists []. now rewrite app_nil_r.
  - destruct (IH (note [act] m)) as [acts ->]. cbn.
    exists (act :: acts). now rewrite <- app_assoc.
  - apply IH.
  - destruct (IH (store a m)) as [acts ->]. cbn.
    exists (Assigned a :: acts). now rewrite <- app_assoc.
  - apply IH.
  - destruct (feed (new_Receiver n) (inbox m)) as [b log rest|r log]; cbn.
    + destruct (IH b (listened (UartOnData :: log ++ [UartOffData]) rest m))
        as [acts ->]. cbn.
      exists ((UartOnData :: log ++ [UartOffData]) ++ acts).
      now rewrite <- app_assoc.
    + eauto.
Qed.

(** While the bytes stay short of the request, the buffer holds them in
    arrival order, in front of what it held beyond the cursor. *)
Lemma feed_short_buffer (chunks : list bytes) :
  forall r,
    well_formed r ->
    (cursor r + length (concat chunks) < packetLength r)%nat ->
    exists r',
      feed r chunks = Waiting r' []
      /\ packetLength r' = packetLength r
      /\ cursor r' = (cursor r + length (concat chunks))%nat
      /\ buf r' = firstn (cursor r) (buf r) ++ concat chunks
                  ++ skipn (cursor r') (buf r).
Proof.
  induction chunks as [|data chunks IH]; intros r Hwf Hsum; cbn in *.
  - exists r. repeat split; try lia.
    symmetry. apply firstn_skipn.
  - rewrite length_app in Hsum.
    assert (Hwf' := Hwf). destruct Hwf' as [Hlen Hcur].
    unfold handler, Uint8Array_set.
    destruct (Nat.ltb_spec (length (buf r)) (cursor r + length data)); [lia|].
    destruct (Nat.leb_spec (packetLength r) (cursor r + length data)); [lia|].
    set (b' := firstn (cursor r) (buf r) ++ data
               ++ skipn (cursor r + length data) (buf r)).
    set (r1 := {| packetLength := packetLength r; buf := b';
                  cursor := (cursor r + length data)%nat |}).
    assert (Hlen1 : length (firstn (cursor r) (buf r) ++ data)
                    = (cursor r + length data)%nat)
      by (rewrite length_app, length_firstn; lia).
    destruct (IH r1) as (r' & Hfeed & Hp & Hc & Hb).
    + split; cbn; [|lia]. unfold b'.
      rewrite !length_app, length_firstn, length_skipn. lia.
    + cbn. lia.
    + exists r'. cbn in Hp, Hc, Hb. repeat split; try assumption.
      * rewrite length_app. lia.
      * rewrite Hb. unfold b'.
        rewrite (app_assoc (firstn (cursor r) (buf r)) data).
        replace (cursor r + length data)%nat
          with (length (firstn (cursor r) (buf r) ++ data) + 0)%nat
          at 1 by lia.
        rewrite firstn_app_2. cbn [firstn]. rewrite app_nil_r.
        rewrite skipn_app, Hlen1.
        rewrite (skipn_all2 (firstn (cursor r) (buf r) ++ data)) by lia.
        rewrite skipn_skipn.
        replace (cursor r' - (cursor r + length data)
                 + (cursor r + length data))%nat
          with (cursor r') by lia.
        cbn [app]. now rewrite <- !app_assoc.
Qed.

Lemma skipn_repeat_zeros (k n : nat) :
  skipn k (repeat 0 n) = repeat 0 (n - k).
Proof.
  revert k. induction n as [|n IH]; intros [|k]; cbn; auto.
Qed.

(** A fulfilled [receive] logged nothing but the exceptions of refused
    chunks. *)
Lemma feed_fulfilled_this (n : nat) (m m' : Machine) (b : bytes) :
  run (receive n) m = Resolved b m' ->
  exists log rest,
    feed (new_Receiver n) (inbox m) = Fulfilled b log rest
    /\ m' = listened (UartOnData :: log ++ [UartOffData]) rest m.
Proof.
  cbn. destruct (feed (new_Receiver n) (inbox m)) as [b' log rest|r log];
    [|discriminate].
  intros [= <- <-]. eauto.
Qed.

(** X1: however the same [n] bytes are cut into ['data'] chunks,
    [receive(n)] resolves with those bytes in arrival order, and its
    listener was attached once and detached once. *)
Theorem receive_is_chunking_invariant
        (n : nat) (m1 m2 : Machine) (cs1 cs2 rest1 rest2 : list bytes) :
  inbox m1 = cs1 ++ rest1 ->
  inbox m2 = cs2 ++ rest2 ->
  concat cs1 = concat cs2 ->
  length (concat cs1) = n ->
  (0 < n)%nat ->
  exists m1' m2',
    run (receive n) m1 = Resolved (concat cs1) m1'
    /\ run (receive n) m2 = Resolved (concat cs1) m2'
    /\ trace m1' = trace m1 ++ [UartOnData; UartOffData]
    /\ trace m2' = trace m2 ++ [UartOnData; UartOffData].
Proof.
  intros Hin1 Hin2 Hcat Hlen Hpos.
  destruct (receive_completes_on_exact_fill n m1 cs1 rest1 Hin1 Hlen Hpos)
    as (t1 & _ & H1).
  rewrite Hcat in Hlen.
  destruct (receive_completes_on_exact_fill n m2 cs2 rest2 Hin2 Hlen Hpos)
    as (t2 & _ & H2).
  rewrite <- Hcat in H2.
  do 2 eexists. split; [exact H1|]. split; [exact H2|].
  split; reflexivity.
Qed.

(** X2: whenever [receive(n)] resolves, whatever the chunks were and
    however many were refused, the buffer it hands over has exactly [n]
    bytes, the controller object is untouched, and the listener that was
    attached first has been detached last. *)
Theorem receive_resolves_with_exactly_n_bytes
        (n : nat) (m m' : Machine) (b : bytes) :
  run (receive n) m = Resolved b m' ->
  length b = n
  /\ this m' = this m
  /\ exists log, trace m' = trace m ++ UartOnData :: log ++ [UartOffData].
Proof.
  intros Hrun.
  destruct (feed_fulfilled_this n m m' b Hrun) as (log & rest & Hfeed & ->).
  split.
  - apply (feed_fulfilled_length _ _ _ _ _ (new_Receiver_well_formed n)
             Hfeed).
  - split; [reflexivity|]. exists log. reflexivity.
Qed.

(** X3: [receive] has no deadline.  As long as fewer than [n] bytes have
    arrived it stays pending with its listener attached, the cursor at the
    number of bytes received and the buffer holding them in order in front
    of zeros. *)
Theorem receive_waits_without_deadline (n : nat) (m : Machine) :
  (length (concat (inbox m)) < n)%nat ->
  exists r,
    run (receive n) m = Pending r (listened [UartOnData] [] m)
    /\ cursor r = length (concat (inbox m))
    /\ buf r = concat (inbox m)
               ++ repeat 0 (n - length (concat (inbox m))).
Proof.
  intros Hlen. cbn.
  destruct (feed_short_buffer (inbox m) (new_Receiver n))
    as (r & Hfeed & _ & Hcur & Hbuf);
    [apply new_Receiver_well_formed | cbn; lia |].
  exists r. rewrite Hfeed. cbn in Hcur, Hbuf.
  split; [reflexivity|]. split; [exact Hcur|].
  rewrite Hbuf, Hcur. unfold new_Uint8Array. f_equal.
  apply skipn_repeat_zeros.
Qed.

(** ** Methods as a whole *)

Section MoreControllerFacts.

Variable K : Constants.

(** The machine [setup] and every mode change to SLEEP pass through. *)
Local Abbreviation asleep m :=
  (note [EmitMode SLEEP]
     (store (Mode_field SLEEP)
        (note [DigitalWrite M1 HIGH] (note [DigitalWrite M0 HIGH] m)))).

Lemma run_setup_from (m : Machine) :
  run (setup K) m
  = match run (readParameters K) (asleep m) with
    | Resolved c m' =>
        match run readVersion (store (Config_field c) m') with
        | Resolved v m'' => Resolved tt (store (Version_field v) m'')
        | Rejected e m'' => Rejected e m''
        | Pending r m'' => Pending r m''
        end
    | Rejected e m' => Rejected e m'
    | Pending r m' => Pending r m'
    end.
Proof.
  unfold setup. rewrite run_bind.
  change (run (setMode SLEEP) m) with (Resolved tt (asleep m)).
  cbv iota beta. rewrite run_bind.
  destruct (run (readParameters K) (asleep m)) as [c m'|e m'|r m'];
    [|reflexivity|reflexivity].
  rewrite run_assign_this, run_bind.
  destruct (run readVersion (store (Config_field c) m')); reflexivity.
Qed.




(** X4: [readVersion] is rejected by the sleep gate and by nothing else.
    The buffer [receive(4)] resolves with always has four bytes, so the
    length check behind the [await] never throws its [TypeError]. *)
Theorem readVersion_rejects_only_at_the_sleep_gate
        (m m' : Machine) (e : JsError) :
  run readVersion m = Rejected e m' ->
  mode (this m) <> SLEEP
  /\ e = IllegalOperationError "Reading parameters while not in sleep mode"
  /\ m' = m.
Proof.
  intros Hrun. destruct (Mode_eqb_spec (mode (this m)) SLEEP) as [Hs|Hn].
  - exfalso. unfold readVersion in Hrun.
    rewrite run_bind, (run_assertSleepMode_in_SLEEP m Hs) in Hrun.
    cbv zeta in Hrun. rewrite run_perform, run_await in Hrun.
    match type of Hrun with
    | context [feed ?r ?cs] => destruct (feed r cs) as [b log rest|r' log]
                                 eqn:Hfeed
    end; [|discriminate].
    apply (feed_fulfilled_length _ _ _ _ _ (new_Receiver_well_formed 4))
      in Hfeed. cbn in Hfeed.
    unfold readVersion_unpack in Hrun. rewrite Hfeed in Hrun.
    discriminate.
  - unfold readVersion in Hrun.
    rewrite run_bind, (run_assertSleepMode_elsewhere m Hn) in Hrun.
    injection Hrun as <- <-. auto.
Qed.

(** X5: with the two replies on the line, in any chunking, and the
    expected header, [setup] resolves; from then on [getConfig()] returns
    the register that was read, [getVersion()] the four version bytes and
    [getMode()] SLEEP. *)
Theorem setup_then_accessors
        (m : Machine) (cs vs rest : list bytes) (h md v f : Z) (c : Config) :
  isSetup (this m) = undefined ->
  inbox m = cs ++ vs ++ rest ->
  length (concat cs) = 6%nat ->
  concat vs = [h; md; v; f] ->
  Config_from K (concat cs) = Normal c ->
  header c = HEADER K ->
  exists m',
    run (setup K) m = Resolved tt m'
    /\ run (getConfig K) m' = Resolved c m'
    /\ run getVersion m'
       = Resolved (Some {| v_header := h; v_model := md;
                           v_version := v; v_features := f |}) m'
    /\ run getMode m' = Resolved SLEEP m'.
Proof.
  intros Hs Hin Hlen Hvs Hc Hh.
  destruct (run_setup K m cs vs rest h md v f Hin Hlen Hvs)
    as (c' & Hc' & Hsetup).
  assert (c' = c) as -> by congruence.
  destruct (Hsetup Hh) as (m' & Hrun & Hmode & Hconfig & Hversion & Hset).
  exists m'. split; [exact Hrun|].
  assert (Hs' : isSetup (this m') = undefined) by congruence.
  unfold getConfig, getVersion, getMode.
  rewrite !run_bind, (run_assertReady m' Hs'). cbn.
  rewrite Hconfig, Hversion, Hmode. auto.
Qed.

(** X6: when the configuration reply carries another header, [setup] is
    rejected with [BadHeader] right after the six bytes: the mode is SLEEP,
    the held configuration and version are as before, and the read-version
    command was never written. *)
Theorem setup_stops_at_a_bad_header
        (m : Machine) (cs rest : list bytes) (c : Config) :
  inbox m = cs ++ rest ->
  length (concat cs) = 6%nat ->
  Config_from K (concat cs) = Normal c ->
  header c <> HEADER K ->
  exists tail,
    concat tail = []
    /\ run (setup K) m
       = Rejected ValidationError_BadHeader
           {| this := assign (Mode_field SLEEP) (this m);
              trace := trace m
                       ++ [DigitalWrite M0 HIGH; DigitalWrite M1 HIGH;
                           Assigned (Mode_field SLEEP); EmitMode SLEEP;
                           UartWrite [0xc1; 0xc1; 0xc1];
                           UartOnData; UartOffData];
              inbox := tail ++ rest;
              pin_level := pin_level m |}.
Proof.
  intros Hin Hlen Hc Hh.
  destruct (run_readParameters K (asleep m) cs rest)
    as (c' & tail & Htail & Hc' & Hrun);
    [reflexivity | exact Hin | exact Hlen |].
  assert (c' = c) as -> by congruence.
  exists tail. split; [assumption|].
  rewrite run_setup_from, Hrun. cbv zeta.
  destruct (Z.eqb_spec (header c) (HEADER K)); [contradiction|].
  unfold listened, note, store. cbn. f_equal. f_equal.
  rewrite <- !app_assoc. reflexivity.
Qed.

(** X7: [setup] has no deadline either.  If the device sends fewer than
    six bytes, [setup] stays pending on its first read: the pins and the
    mode say SLEEP, the read-configuration command is out, the listener is
    attached, and nothing was adopted. *)
Theorem setup_waits_for_a_silent_device (m : Machine) :
  (length (concat (inbox m)) < 6)%nat ->
  exists r,
    run (setup K) m
    = Pending r
        {| this := assign (Mode_field SLEEP) (this m);
           trace := trace m
                    ++ [DigitalWrite M0 HIGH; DigitalWrite M1 HIGH;
                        Assigned (Mode_field SLEEP); EmitMode SLEEP;
                        UartWrite [0xc1; 0xc1; 0xc1]; UartOnData];
           inbox := [];
           pin_level := pin_level m |}
    /\ cursor r = length (concat (inbox m)).
Proof.
  intros Hlen. rewrite run_setup_from. unfold readParameters.
  rewrite run_bind, (run_assertSleepMode_in_SLEEP (asleep m) eq_refl).
  rewrite run_perform, run_await.
  destruct (feed_short (inbox m) (new_Receiver 6)) as (r & Hfeed & Hcur);
    [apply new_Receiver_well_formed | cbn; lia |].
  change (inbox (note [UartWrite PACKET_GET_CONFIG] (asleep m)))
    with (inbox m).
  rewrite Hfeed. exists r. split; [|exact Hcur].
  unfold listened, note, store. cbn. f_equal. f_equal.
  rewrite <- !app_assoc. reflexivity.
Qed.

(** X8: [setup] leaves the controller in SLEEP, so a [send] that follows
    it is never carried out: it adds no effect to what [setup] did, and
    the two in sequence never resolve. *)
Theorem send_right_after_setup_is_refused (m : Machine) (data : bytes) :
  final (run (bind (setup K) (fun _ => send data)) m)
  = final (run (setup K) m)
  /\ forall m', run (bind (setup K) (fun _ => send data)) m <> Resolved tt m'.
Proof.
  rewrite run_bind.
  assert (Hmode := setup_ends_in_SLEEP K m). unfold mode_after in Hmode.
  destruct (run (setup K) m) as [[] m0|e m0|r m0]; cbn in *.
  - rewrite Hmode. cbn. split; [reflexivity | discriminate].
  - split; [reflexivity | discriminate].
  - split; [reflexivity | discriminate].
Qed.

Lemma toUint8_is_byte (z : Z) : is_byte (toUint8 z).
Proof. unfold is_byte, toUint8. apply Z.mod_pos_bound. lia. Qed.

(** X9: in SLEEP, whatever numbers the fields of [cfg] hold and whatever
    the device does next, the first thing [setConfig(cfg)] does is one
    write of exactly six values, each of them a byte. *)
Theorem setConfig_writes_six_bytes_first (m : Machine) (cfg : Config) :
  mode (this m) = SLEEP ->
  exists data more,
    trace (final (run (setConfig K cfg) m))
    = trace m ++ UartWrite data :: more
    /\ length data = 6%nat
    /\ Forall is_byte data.
Proof.
  intros Hmode. unfold setConfig.
  rewrite run_bind, (run_assertSleepMode_in_SLEEP m Hmode).
  cbv zeta. rewrite run_perform.
  match goal with
  | |- context [run ?p (note [UartWrite ?d] m)] =>
      destruct (trace_extends p (note [UartWrite d] m)) as [more Hmore];
      exists d, more
  end.
  split; [|split].
  - rewrite Hmore. cbn. rewrite <- app_assoc. reflexivity.
  - reflexivity.
  - unfold Uint8Array_of. cbn [map].
    repeat constructor; apply toUint8_is_byte.
Qed.

(** X10: [setConfig] changes the controller object in one step or not at
    all.  When it resolves, the object differs from before in its
    configuration only, which is the parse of a six-byte buffer; when it
    is rejected or pending, the object is as before. *)
Theorem setConfig_is_all_or_nothing (m : Machine) (cfg : Config) :
  match run (setConfig K cfg) m with
  | Resolved _ m' =>
      exists echo c,
        length echo = 6%nat
        /\ Config_from K echo = Normal c
        /\ this m' = assign (Config_field c) (this m)
  | Rejected _ m' | Pending _ m' => this m' = this m
  end.
Proof.
  unfold setConfig. rewrite run_bind.
  destruct (Mode_eqb_spec (mode (this m)) SLEEP) as [Hs|Hn].
  - rewrite (run_assertSleepMode_in_SLEEP m Hs).
    cbv zeta. rewrite run_perform, run_await.
    match goal with
    | |- context [feed ?r ?cs] => destruct (feed r cs) as [b log rest|r' log]
                                    eqn:Hfeed
    end; [|reflexivity].
    apply (feed_fulfilled_length _ _ _ _ _ (new_Receiver_well_formed 6))
      in Hfeed. cbn in Hfeed.
    rewrite run_call.
    destruct (Config_from K b) as [c|e] eqn:Hc; [|reflexivity].
    cbn. exists b, c. auto.
  - rewrite (run_assertSleepMode_elsewhere m Hn). reflexivity.
Qed.

(** X11: in SLEEP, [resetConfig] writes the reset command, waits 50, writes
    the read-configuration command and listens, in that order, whatever
    the device replies.  It adopts a register only if it resolves, and then
    the register has the expected header; rejected or pending, it leaves
    the controller object as it was. *)
Theorem resetConfig_resets_waits_and_rereads (m : Machine) :
  mode (this m) = SLEEP ->
  (exists more,
      trace (final (run (resetConfig K) m))
      = trace m ++ [UartWrite [0xc4; 0xc4; 0xc4]; Wait 50;
                    UartWrite [0xc1; 0xc1; 0xc1]; UartOnData] ++ more)
  /\ match run (resetConfig K) m with
     | Resolved _ m' =>
         exists c,
           header c = HEADER K
           /\ this m' = assign (Config_field c) (this m)
     | Rejected _ m' | Pending _ m' => this m' = this m
     end.
Proof.
  intros Hmode. unfold resetConfig.
  rewrite run_bind, (run_assertSleepMode_in_SLEEP m Hmode).
  cbv zeta. rewrite !run_perform, note_note, run_bind.
  unfold readParameters.
  set (m2 := note _ m).
  rewrite run_bind, (run_assertSleepMode_in_SLEEP m2 Hmode).
  rewrite run_perform, run_await.
  change (inbox (note [UartWrite PACKET_GET_CONFIG] m2)) with (inbox m).
  destruct (feed (new_Receiver 6) (inbox m)) as [b log rest|r log].
  - rewrite run_call. destruct (Config_from K b) as [c|e].
    + unfold Config_assert.
      destruct (Z.eqb_spec (header c) (HEADER K)) as [Hh|Hh]; cbn.
      * split; [|eauto]. eexists. rewrite <- !app_assoc. cbn. reflexivity.
      * split; [|reflexivity].
        eexists. rewrite <- !app_assoc. cbn. reflexivity.
    + cbn. split; [|reflexivity].
      eexists. rewrite <- !app_assoc. cbn. reflexivity.
  - cbn. split; [|reflexivity].
    eexists. rewrite <- !app_assoc. cbn. reflexivity.
Qed.

(** X12: the mode recorded by [setMode] decides which traffic is let
    through next.  After [setMode(SLEEP)] a [send] is refused and
    [readVersion] writes its command; after any other mode [send] goes to
    the data link and [readVersion] is refused; the raw [write] goes to
    the data link after every mode. *)
Theorem setMode_flips_the_gates (new_mode : Mode) (m : Machine)
        (data : bytes) :
  let m1 := final (run (setMode new_mode) m) in
  run (bind (setMode new_mode) (fun _ => write data)) m
  = Resolved tt (note [LinkWrite data] m1)
  /\ match new_mode with
     | SLEEP =>
         run (bind (setMode new_mode) (fun _ => send data)) m
         = Rejected (IllegalOperationError
                       "Attempt to send data while in sleep mode") m1
         /\ exists more,
             trace (final (run (bind (setMode new_mode)
                                  (fun _ => readVersion)) m))
             = trace m1 ++ [UartWrite [0xc3; 0xc3; 0xc3]; UartOnData]
               ++ more
     | NORMAL | WAKE_UP | POWER_SAVING =>
         run (bind (setMode new_mode) (fun _ => send data)) m
         = Resolved tt (note [LinkSend data] m1)
         /\ run (bind (setMode new_mode) (fun _ => readVersion)) m
            = Rejected (IllegalOperationError
                          "Reading parameters while not in sleep mode") m1
     end.
Proof.
  cbv zeta. split; [destruct new_mode; reflexivity|].
  destruct new_mode; try (split; reflexivity).
  split; [reflexivity|].
  rewrite run_bind.
  change (run (setMode SLEEP) m) with (Resolved tt (asleep m)).
  cbv iota beta. unfold readVersion.
  rewrite run_bind, (run_assertSleepMode_in_SLEEP (asleep m) eq_refl).
  cbv zeta. rewrite run_perform, run_await.
  match goal with
  | |- context [feed ?r ?cs] => destruct (feed r cs) as [b log rest|r' log]
  end.
  - match goal with
    | |- context [run ?p ?mm] =>
        destruct (trace_extends p mm) as [more Hmore]
    end.
    rewrite Hmore. cbn. eexists. rewrite <- !app_assoc. cbn. reflexivity.
  - cbn. eexists. rewrite <- !app_assoc. cbn. reflexivity.
Qed.

End MoreControllerFacts.

(** ** The drain, frame after frame *)

Section MoreDrainFacts.

Variable BroadcastPacket : Type.
Variable BroadcastPacket_from : bytes -> completion BroadcastPacket.
Variable message_listeners : BroadcastPacket -> completion unit.
Variable error_listeners : JsError -> completion unit.

Local Abbreviation callback :=
  (on_message BroadcastPacket BroadcastPacket_from
     message_listeners error_listeners).
Local Abbreviation deliver :=
  (connection_emit BroadcastPacket BroadcastPacket_from
     message_listeners error_listeners).
Local Abbreviation drained :=
  (drain BroadcastPacket BroadcastPacket_from
     message_listeners error_listeners).
Local Abbreviation outcome_of :=
  (events_of BroadcastPacket BroadcastPacket_from message_listeners).

(** The exceptions that the listeners of ['error'] throw at these
    events. *)
Local Abbreviation thrown_at :=
  (flat_map (fun ev : Event BroadcastPacket =>
               match ev with
               | Message _ => []
               | ErrorEvent e =>
                   match error_listeners e with
                   | Normal _ => []
                   | Abrupt e' => [e']
                   end
               end)).

Lemma on_message_uncaught (d : Drain BroadcastPacket) (msg : bytes) :
  uncaught (callback d msg) = uncaught d ++ thrown_at (outcome_of msg).
Proof.
  unfold on_message, events_of, emit.
  destruct (BroadcastPacket_from msg) as [p|e]; cbn.
  - destruct (message_listeners p) as [[]|e]; cbn.
    + now rewrite app_nil_r.
    + destruct (error_listeners e); cbn; now rewrite ?app_nil_r.
  - destruct (error_listeners e); cbn; now rewrite ?app_nil_r.
Qed.

Lemma fold_connection_emit_uncaught (frames : list bytes) :
  forall d,
    subscribed d = true ->
    uncaught (fold_left deliver frames d)
    = uncaught d ++ thrown_at (flat_map outcome_of frames).
Proof.
  induction frames as [|msg frames IH]; intros d Hd; cbn.
  - now rewrite app_nil_r.
  - unfold connection_emit at 2. rewrite Hd.
    destruct (on_message_effect BroadcastPacket BroadcastPacket_from
                message_listeners error_listeners d msg) as [Hs _].
    rewrite IH by congruence.
    rewrite on_message_uncaught, flat_map_app, <- app_assoc. reflexivity.
Qed.

(** X13: the [try]/[catch] of the drain lets out the exceptions of the
    listeners of ['error'] and no others: whatever the frames, the parser
    and the listeners of ['message'] do, the exceptions that leave the
    callback are those thrown at the ['error'] events, in order.  With
    listeners of ['error'] that return, none leaves it. *)
Theorem drain_lets_out_only_what_error_listeners_throw
        (frames : list bytes) :
  uncaught (drained frames) = thrown_at (emitted (drained frames))
  /\ ((forall e, error_listeners e = Normal tt) ->
      uncaught (drained frames) = []).
Proof.
  assert (H : uncaught (drained frames)
              = thrown_at (emitted (drained frames))).
  { unfold drain.
    rewrite (fold_connection_emit_uncaught frames
               (new_Drain BroadcastPacket) eq_refl).
    destruct (fold_connection_emit BroadcastPacket BroadcastPacket_from
                message_listeners error_listeners frames
                (new_Drain BroadcastPacket) eq_refl) as [_ ->].
    reflexivity. }
  split; [exact H|].
  intros Hquiet. rewrite H. clear H.
  generalize (emitted (drained frames)). intros evs.
  induction evs as [|[p|e] evs IH]; cbn; auto.
  rewrite Hquiet. exact IH.
Qed.


End MoreDrainFacts.

(** ** The sender over the controller *)

Section BroadcastFacts.

Variable BroadcastPacket : Type.
Variable with_data : bytes -> BroadcastPacket.
Variable toTypedArray : BroadcastPacket -> completion bytes.
Variable send_listeners : BroadcastPacket -> completion unit.

Local Abbreviation broadcast :=
  (Broadcast_send BroadcastPacket with_data toTypedArray send_listeners
     Machine LoRaE32_connection_send).

(** X15: a broadcast over the controller follows the controller's gate.
    In SLEEP the call throws the controller's [IllegalOperationError],
    nothing reaches the data link and no ['send'] event is emitted; in the
    other modes the bytes of the packet go to the framed send of the data
    link first and the ['send'] event with the packet comes after. *)
Theorem Broadcast_send_over_the_controller
        (data wire : bytes) (b : Broadcast BroadcastPacket Machine) :
  toTypedArray (with_data data) = Normal wire ->
  broadcast data b
  = match mode (this (connection b)) with
    | SLEEP =>
        (Abrupt (IllegalOperationError
                   "Attempt to send data while in sleep mode"), b)
    | NORMAL | WAKE_UP | POWER_SAVING =>
        (send_listeners (with_data data),
         {| connection := note [LinkSend wire] (connection b);
            sent := sent b ++ [with_data data] |})
    end.
Proof.
  intros Hwire. unfold Broadcast_send, LoRaE32_connection_send.
  rewrite Hwire. destruct b as [m evs]. cbn.
  destruct (mode (this m)); reflexivity.
Qed.

End BroadcastFacts.

(** ** What the methods leave alone *)

Lemma assigns_only_bind {A B : Type} (allowed : Assignment -> bool)
      (p : Async A) (f : A -> Async B) :
  assigns_only allowed p ->
  (forall a, assigns_only allowed (f a)) ->
  assigns_only allowed (bind p f).
Proof.
  induction p as [a|e|act k IH|k IH|a k IH|pin k IH|n k IH]; cbn; auto.
  intros [Ha Hk] Hf. auto.
Qed.

Lemma assigns_only_call {A : Type} (allowed : Assignment -> bool)
      (c : completion A) :
  assigns_only allowed (call c).
Proof. destruct c; exact I. Qed.

(** What the allowed assignments preserve, the method preserves. *)
Lemma assigns_only_run {A X : Type} (allowed : Assignment -> bool)
      (view : LoRaE32 -> X) (p : Async A) :
  (forall a t, allowed a = true -> view (assign a t) = view t) ->
  assigns_only allowed p ->
  forall m, view (this (final (run p m))) = view (this m).
Proof.
  intros Hview.
  induction p as [a|e|act k IH|k IH|a k IH|pin k IH|n k IH]; cbn;
    intros Hk m; auto.
  - rewrite IH by assumption. reflexivity.
  - destruct Hk as [Ha Hk]. rewrite IH by assumption. cbn. auto.
  - destruct (feed (new_Receiver n) (inbox m)); cbn; auto.
    rewrite IH by auto. reflexivity.
Qed.

Create HintDb assigns.

#[local] Hint Resolve assigns_only_call : assigns.
#[local] Hint Extern 1 (assigns_only _ (bind _ _)) =>
  apply assigns_only_bind : assigns.
#[local] Hint Extern 2 (assigns_only _ (if ?b then _ else _)) =>
  destruct b : assigns.
#[local] Hint Extern 2
  (assigns_only _ (match ?o with Some _ => _ | None => _ end)) =>
  destruct o : assigns.
#[local] Hint Extern 3 (assigns_only _ _) => cbn; intros : assigns.
#[local] Hint Extern 3 (_ /\ _) => split : assigns.

Ltac assigns :=
  unfold perform, this_, assign_this, receive, assertSleepMode, assertReady;
  auto 16 with assigns.

Section FrameFacts.

Variable K : Constants.
Variable Address : Type.
Variable new_Address : option Config -> completion Address.

Lemma readParameters_assigns_nothing :
  assigns_only no_assignment (readParameters K).
Proof. unfold readParameters. assigns. Qed.

Lemma readVersion_assigns_nothing : assigns_only no_assignment readVersion.
Proof. unfold readVersion. assigns. Qed.

Lemma readParameters_assigns_config_only :
  assigns_only config_assignment (readParameters K).
Proof. unfold readParameters. assigns. Qed.

(** X16: a chunk that would run past the end of the buffer is lost as a
    whole.  The handler throws before it copies or counts anything, so the
    [receive] goes on as if the chunk had never arrived, apart from the
    uncaught [RangeError]. *)
Theorem overrunning_chunk_is_dropped_whole
        (r : Receiver) (data : bytes) (rest : list bytes) :
  well_formed r ->
  (packetLength r < cursor r + length data)%nat ->
  feed r (data :: rest)
  = logged (UncaughtInHandler (RangeError "offset is out of bounds"))
      (feed r rest).
Proof.
  intros [Hlen Hcur] Hover. cbn. unfold handler, Uint8Array_set.
  rewrite Hlen.
  destruct (Nat.ltb_spec (packetLength r) (cursor r + length data)); [|lia].
  reflexivity.
Qed.

(** X17: [setup] does not depend on the mode it is called in: it begins
    with [setMode(SLEEP)], so from two controllers that differ in the
    recorded mode only it does the same and ends the same. *)
Theorem setup_forgets_the_mode_it_starts_in (m : Machine) (md : Mode) :
  run (setup K) (with_mode md m) = run (setup K) m.
Proof. rewrite !run_setup_from. reflexivity. Qed.

(** X18: the methods that only read leave the whole controller object as
    it was, however they end: the two register reads, the byte
    accumulation, the accessors, [close], [send], [write], [ready] and
    [waitQueue].  In particular [readParameters] and [readVersion] adopt
    nothing themselves. *)
Theorem reading_methods_leave_the_object_alone
        (m : Machine) (data : bytes) (n : nat) :
  this (final (run (readParameters K) m)) = this m
  /\ this (final (run readVersion m)) = this m
  /\ this (final (run (receive n) m)) = this m
  /\ this (final (run (getConfig K) m)) = this m
  /\ this (final (run (getAddress Address new_Address) m)) = this m
  /\ this (final (run getVersion m)) = this m
  /\ this (final (run getMode m)) = this m
  /\ this (final (run close m)) = this m
  /\ this (final (run (send data) m)) = this m
  /\ this (final (run (write data) m)) = this m
  /\ this (final (run ready m)) = this m
  /\ this (final (run waitQueue m)) = this m.
Proof.
  repeat match goal with |- _ /\ _ => split end;
    apply (assigns_only_run no_assignment (fun t => t));
    try (intros a t; discriminate).
  - apply readParameters_assigns_nothing.
  - apply readVersion_assigns_nothing.
  - assigns.
  - unfold getConfig. assigns.
  - unfold getAddress. assigns.
  - unfold getVersion. assigns.
  - unfold getMode. assigns.
  - unfold close. assigns.
  - unfold send. assigns.
  - unfold write. assigns.
  - unfold ready. assigns.
  - exact I.
Qed.

(** X19: [setConfig] and [resetConfig] write no field but [config]: the
    version read by [setup], the recorded mode, [isSetup] and the watcher
    id are the same after them as before, however they end. *)
Theorem config_writers_touch_the_configuration_only
        (m : Machine) (cfg : Config) :
  let unrelated t := (version t, mode t, isSetup t, auxWatcherId t) in
  unrelated (this (final (run (setConfig K cfg) m))) = unrelated (this m)
  /\ unrelated (this (final (run (resetConfig K) m))) = unrelated (this m).
Proof.
  cbv zeta.
  split;
    apply (assigns_only_run config_assignment
             (fun t => (version t, mode t, isSetup t, auxWatcherId t)));
    try (intros [md|c|v] t; [discriminate | reflexivity | discriminate]).
  - unfold setConfig. assigns.
  - unfold resetConfig.
    pose proof readParameters_assigns_config_only. assigns.
Qed.

End FrameFacts.

(** ** The further facts at concrete inputs *)

Lemma receive_is_chunking_invariant_witness :
  (inbox (boot sample_config_reply) = sample_config_reply ++ []
   /\ inbox (boot [[0xc0; 0; 1; 0x1a; 0x17; 0x44]; [7]])
      = [[0xc0; 0; 1; 0x1a; 0x17; 0x44]] ++ [[7]]
   /\ concat sample_config_reply = concat [[0xc0; 0; 1; 0x1a; 0x17; 0x44]]
   /\ length (concat sample_config_reply) = 6%nat
   /\ (0 < 6)%nat)
  /\ exists m1' m2',
      run (receive 6) (boot sample_config_reply)
      = Resolved (concat sample_config_reply) m1'
      /\ run (receive 6) (boot [[0xc0; 0; 1; 0x1a; 0x17; 0x44]; [7]])
         = Resolved (concat sample_config_reply) m2'
      /\ trace m1' = trace (boot sample_config_reply)
                     ++ [UartOnData; UartOffData]
      /\ trace m2' = trace (boot [[0xc0; 0; 1; 0x1a; 0x17; 0x44]; [7]])
                     ++ [UartOnData; UartOffData].
Proof.
  split; [repeat split; lia|].
  apply (receive_is_chunking_invariant 6
           (boot sample_config_reply)
           (boot [[0xc0; 0; 1; 0x1a; 0x17; 0x44]; [7]])
           sample_config_reply [[0xc0; 0; 1; 0x1a; 0x17; 0x44]] [] [[7]]);
    try reflexivity.
  lia.
Defined.

Lemma receive_resolves_with_exactly_n_bytes_witness :
  let m := boot [[1; 2; 3; 4]; [5; 6; 7; 8]; [9; 10]] in
  let m' := final (run (receive 6) m) in
  run (receive 6) m = Resolved [1; 2; 3; 4; 9; 10] m'
  /\ length [1; 2; 3; 4; 9; 10] = 6%nat
  /\ this m' = this m
  /\ exists log, trace m' = trace m ++ UartOnData :: log ++ [UartOffData].
Proof.
  cbv zeta.
  assert (H : run (receive 6) (boot [[1; 2; 3; 4]; [5; 6; 7; 8]; [9; 10]])
              = Resolved [1; 2; 3; 4; 9; 10]
                  (final (run (receive 6)
                            (boot [[1; 2; 3; 4]; [5; 6; 7; 8]; [9; 10]]))))
    by reflexivity.
  split; [exact H|].
  exact (receive_resolves_with_exactly_n_bytes 6 _ _ _ H).
Defined.

Lemma receive_waits_without_deadline_witness :
  (length (concat (inbox (boot sample_short_reply))) < 6)%nat
  /\ exists r,
      run (receive 6) (boot sample_short_reply)
      = Pending r (listened [UartOnData] [] (boot sample_short_reply))
      /\ cursor r = length (concat (inbox (boot sample_short_reply)))
      /\ buf r = concat (inbox (boot sample_short_reply))
                 ++ repeat 0
                      (6 - length (concat (inbox (boot sample_short_reply)))).
Proof.
  assert (H : (length (concat (inbox (boot sample_short_reply))) < 6)%nat)
    by (cbn; lia).
  split; [exact H|].
  exact (receive_waits_without_deadline 6 (boot sample_short_reply) H).
Defined.

Lemma readVersion_rejects_only_at_the_sleep_gate_witness :
  let m := in_NORMAL sample_version_reply in
  let e := IllegalOperationError
             "Reading parameters while not in sleep mode" in
  run readVersion m = Rejected e m
  /\ mode (this m) <> SLEEP
  /\ e = IllegalOperationError "Reading parameters while not in sleep mode"
  /\ m = m.
Proof.
  cbv zeta.
  assert (H : run readVersion (in_NORMAL sample_version_reply)
              = Rejected (IllegalOperationError
                            "Reading parameters while not in sleep mode")
                  (in_NORMAL sample_version_reply))
    by reflexivity.
  split; [exact H|].
  exact (readVersion_rejects_only_at_the_sleep_gate _ _ _ H).
Defined.

Lemma setup_then_accessors_witness :
  let m := boot (sample_config_reply ++ sample_version_reply) in
  (isSetup (this m) = undefined
   /\ inbox m = sample_config_reply ++ sample_version_reply ++ []
   /\ length (concat sample_config_reply) = 6%nat
   /\ concat sample_version_reply = [0xc3; 0x32; 0x0d; 0x14]
   /\ Config_from E32 (concat sample_config_reply) = Normal sample_config
   /\ header sample_config = HEADER E32)
  /\ exists m',
      run (setup E32) m = Resolved tt m'
      /\ run (getConfig E32) m' = Resolved sample_config m'
      /\ run getVersion m'
         = Resolved (Some {| v_header := 0xc3; v_model := 0x32;
                             v_version := 0x0d; v_features := 0x14 |}) m'
      /\ run getMode m' = Resolved SLEEP m'.
Proof.
  cbv zeta. split; [repeat split|].
  apply (setup_then_accessors E32
           (boot (sample_config_reply ++ sample_version_reply))
           sample_config_reply sample_version_reply []
           0xc3 0x32 0x0d 0x14 sample_config);
    reflexivity.
Defined.

Lemma setup_stops_at_a_bad_header_witness :
  (inbox (boot sample_bad_reply) = sample_bad_reply ++ []
   /\ length (concat sample_bad_reply) = 6%nat
   /\ Config_from E32 (concat sample_bad_reply) = Normal sample_bad_config
   /\ header sample_bad_config <> HEADER E32)
  /\ exists tail,
      concat tail = []
      /\ run (setup E32) (boot sample_bad_reply)
         = Rejected ValidationError_BadHeader
             {| this := assign (Mode_field SLEEP)
                          (this (boot sample_bad_reply));
                trace := trace (boot sample_bad_reply)
                         ++ [DigitalWrite M0 HIGH; DigitalWrite M1 HIGH;
                             Assigned (Mode_field SLEEP); EmitMode SLEEP;
                             UartWrite [0xc1; 0xc1; 0xc1];
                             UartOnData; UartOffData];
                inbox := tail ++ [];
                pin_level := pin_level (boot sample_bad_reply) |}.
Proof.
  assert (H : header sample_bad_config <> HEADER E32)
    by (cbn; discriminate).
  split; [repeat split; exact H|].
  exact (setup_stops_at_a_bad_header E32 (boot sample_bad_reply)
           sample_bad_reply [] sample_bad_config
           eq_refl eq_refl eq_refl H).
Defined.

Lemma setup_waits_for_a_silent_device_witness :
  (length (concat (inbox (boot sample_short_reply))) < 6)%nat
  /\ exists r,
      run (setup E32) (boot sample_short_reply)
      = Pending r
          {| this := assign (Mode_field SLEEP) (this (boot sample_short_reply));
             trace := trace (boot sample_short_reply)
                      ++ [DigitalWrite M0 HIGH; DigitalWrite M1 HIGH;
                          Assigned (Mode_field SLEEP); EmitMode SLEEP;
                          UartWrite [0xc1; 0xc1; 0xc1]; UartOnData];
             inbox := [];
             pin_level := pin_level (boot sample_short_reply) |}
      /\ cursor r = length (concat (inbox (boot sample_short_reply))).
Proof.
  assert (H : (length (concat (inbox (boot sample_short_reply))) < 6)%nat)
    by (cbn; lia).
  split; [exact H|].
  exact (setup_waits_for_a_silent_device E32 (boot sample_short_reply) H).
Defined.

Lemma setConfig_writes_six_bytes_first_witness :
  mode (this (boot [])) = SLEEP
  /\ exists data more,
      trace (final (run (setConfig E32 sample_wide_config) (boot [])))
      = trace (boot []) ++ UartWrite data :: more
      /\ length data = 6%nat
      /\ Forall is_byte data.
Proof.
  split; [reflexivity|].
  exact (setConfig_writes_six_bytes_first E32 (boot []) sample_wide_config
           eq_refl).
Defined.

(** The six bytes written for a register whose fields overflow a byte. *)
Example setConfig_wraps_wide_fields :
  trace (final (run (setConfig E32 sample_wide_config) (boot [])))
  = [UartWrite [0xc0; 0xff; 0x01; 0xda; 0x17; 0xff]; UartOnData].
Proof. reflexivity. Qed.

Lemma resetConfig_resets_waits_and_rereads_witness :
  mode (this (boot sample_config_reply)) = SLEEP
  /\ (exists more,
         trace (final (run (resetConfig E32) (boot sample_config_reply)))
         = trace (boot sample_config_reply)
           ++ [UartWrite [0xc4; 0xc4; 0xc4]; Wait 50;
               UartWrite [0xc1; 0xc1; 0xc1]; UartOnData] ++ more)
  /\ match run (resetConfig E32) (boot sample_config_reply) with
     | Resolved _ m' =>
         exists c,
           header c = HEADER E32
           /\ this m'
              = assign (Config_field c) (this (boot sample_config_reply))
     | Rejected _ m' | Pending _ m' =>
         this m' = this (boot sample_config_reply)
     end.
Proof.
  split; [reflexivity|].
  exact (resetConfig_resets_waits_and_rereads E32
           (boot sample_config_reply) eq_refl).
Defined.

Lemma drain_lets_out_only_what_error_listeners_throw_witness :
  let quiet := fun _ : JsError => @Normal unit tt in
  let drained := drain bytes sample_from (fun _ => Abrupt (Error "listener"))
                   quiet in
  (forall e, quiet e = Normal tt)
  /\ emitted (drained [[9]; [1; 0; 5]])
     = [ErrorEvent (TypeError "malformed broadcast packet");
        Message [5]; ErrorEvent (Error "listener")]
  /\ uncaught (drained [[9]; [1; 0; 5]]) = [].
Proof.
  cbv zeta.
  assert (H : forall e : JsError, (fun _ : JsError => @Normal unit tt) e
                                  = Normal tt) by reflexivity.
  split; [exact H|]. split; [reflexivity|].
  exact (proj2 (drain_lets_out_only_what_error_listeners_throw bytes
                  sample_from (fun _ => Abrupt (Error "listener"))
                  (fun _ => Normal tt) [[9]; [1; 0; 5]]) H).
Defined.

Lemma Broadcast_send_over_the_controller_witness :
  let b := {| connection := in_NORMAL []; sent := @nil bytes |} in
  sample_toTypedArray [5] = Normal [0xff; 0xff; 5]
  /\ Broadcast_send bytes (fun data => data) sample_toTypedArray
       (fun _ => Normal tt) Machine LoRaE32_connection_send [5] b
     = (Normal tt,
        {| connection := note [LinkSend [0xff; 0xff; 5]] (in_NORMAL []);
           sent := [[5]] |}).
Proof.
  cbv zeta. split; [reflexivity|].
  exact (Broadcast_send_over_the_controller bytes (fun data => data)
           sample_toTypedArray (fun _ => Normal tt) [5] [0xff; 0xff; 5]
           {| connection := in_NORMAL []; sent := [] |} eq_refl).
Defined.

Lemma overrunning_chunk_is_dropped_whole_witness :
  let r := {| packetLength := 6; buf := [1; 2; 3; 4; 0; 0];
              cursor := 4 |} in
  (well_formed r /\ (packetLength r < cursor r + length [5; 6; 7; 8])%nat)
  /\ feed r [[5; 6; 7; 8]; [9; 10]]
     = logged (UncaughtInHandler (RangeError "offset is out of bounds"))
         (feed r [[9; 10]]).
Proof.
  cbv zeta.
  assert (Hwf : well_formed {| packetLength := 6; buf := [1; 2; 3; 4; 0; 0];
                               cursor := 4 |})
    by (split; cbn; lia).
  assert (Hover : (6 < 4 + 4)%nat) by lia.
  split; [split; [exact Hwf | exact Hover]|].
  exact (overrunning_chunk_is_dropped_whole
           {| packetLength := 6; buf := [1; 2; 3; 4; 0; 0]; cursor := 4 |}
           [5; 6; 7; 8] [[9; 10]] Hwf Hover).
Defined.


